(** * The content processing pipeline of the AI competitor tracker

    A shallow embedding of [src/processors/content_processor.py]
    (class [ContentProcessor]) and the properties of its relevance
    scorer, priority classifier, de-duplicators, date filter, trending
    topic extractor and main pass.

    Modelling conventions.
    - A Python [str] is a [string] of 8-bit characters; the development
      covers ASCII text, on which [str.lower], [\w] and [\s] are the
      functions written below.
    - An article is a Python dict used as a record with a fixed set of
      keys; a key that is absent is [None] in the corresponding field.
    - Python's [int] is [Z]; a [set] of strings is a [gset string]; an
      insertion-ordered [dict] from keywords to counters is an
      association list.
    - [hashlib.md5], [datetime.now] and [datetime.strptime] belong to the
      Python standard library and are parameters of the sections that
      use them. *)

From Stdlib Require Import ZArith QArith Lia List Ascii Sorting.Sorted.
From Stdlib Require String DecimalString.
From stdpp Require Import base option list gmap sets strings.

Local Open Scope Z_scope.

(** ** Text primitives *)

Module Text.

(** [c.lower()] on one ASCII character. *)
Definition lower_ascii (c : ascii) : ascii :=
  let n := nat_of_ascii c in
  if ((65 <=? n)%nat && (n <=? 90)%nat)%bool then ascii_of_nat (n + 32) else c.

(** [s.lower()] *)
Fixpoint lower (s : string) : string :=
  match s with
  | EmptyString => EmptyString
  | String c r => String (lower_ascii c) (lower r)
  end.

(** [kw in text]: substring containment. *)
Fixpoint contains (kw text : string) : bool :=
  String.prefix kw text ||
  match text with
  | EmptyString => false
  | String _ r => contains kw r
  end.

(** The class [\w] of [re]: letters, digits and the underscore. *)
Definition is_word_char (c : ascii) : bool :=
  let n := nat_of_ascii c in
  ((48 <=? n)%nat && (n <=? 57)%nat) ||
  ((65 <=? n)%nat && (n <=? 90)%nat) ||
  ((97 <=? n)%nat && (n <=? 122)%nat) ||
  (n =? 95)%nat.

(** Letters and digits only. *)
Definition is_alnum (c : ascii) : bool :=
  let n := nat_of_ascii c in
  ((48 <=? n)%nat && (n <=? 57)%nat) ||
  ((65 <=? n)%nat && (n <=? 90)%nat) ||
  ((97 <=? n)%nat && (n <=? 122)%nat).

(** The class [\s] of [re] and the characters removed by [str.strip]. *)
Definition is_space (c : ascii) : bool :=
  let n := nat_of_ascii c in
  (n =? 32)%nat || ((9 <=? n)%nat && (n <=? 13)%nat) ||
  ((28 <=? n)%nat && (n <=? 31)%nat).

(** Maximal non-empty runs of characters satisfying [p], left to right.
    [cur] is the run being read, most recent character first. *)
Fixpoint runs_aux (p : ascii -> bool) (cur : list ascii) (s : string)
  : list string :=
  match s with
  | EmptyString =>
      match cur with
      | [] => []
      | _ => [String.string_of_list_ascii (rev cur)]
      end
  | String c r =>
      if p c then runs_aux p (c :: cur) r
      else match cur with
           | [] => runs_aux p [] r
           | _ => String.string_of_list_ascii (rev cur) :: runs_aux p [] r
           end
  end.

Definition runs (p : ascii -> bool) (s : string) : list string :=
  runs_aux p [] s.

(** [re.findall(r'\b\w+\b', s)]: between two word characters there is no
    word boundary, so every match is a maximal run of word characters. *)
Definition findall_words (s : string) : list string := runs is_word_char s.

(** [s.split('T')[0]]: the part of [s] before the first ['T']. *)
Fixpoint split_T_head (s : string) : string :=
  match s with
  | EmptyString => EmptyString
  | String c r => if Ascii.eqb c "T"%char then EmptyString
                  else String c (split_T_head r)
  end.

End Text.

(** More of the text primitives, used by the summary generator. *)

Module Summary.

(** [re.sub(r'\s+', ' ', s)]: every run of whitespace becomes one space.
    [in_ws] tells whether the previous character was whitespace. *)
Fixpoint collapse_ws (in_ws : bool) (s : string) : string :=
  match s with
  | EmptyString => EmptyString
  | String c r =>
      if Text.is_space c
      then (if in_ws then collapse_ws true r
            else String " "%char (collapse_ws true r))
      else String c (collapse_ws false r)
  end.

Fixpoint lstrip (s : string) : string :=
  match s with
  | EmptyString => EmptyString
  | String c r => if Text.is_space c then lstrip r else s
  end.

Definition string_rev (s : string) : string :=
  String.string_of_list_ascii (rev (String.list_ascii_of_string s)).

Definition rstrip (s : string) : string := string_rev (lstrip (string_rev s)).

(** [s.strip()] *)
Definition strip (s : string) : string := rstrip (lstrip s).

Definition is_sentence_end (c : ascii) : bool :=
  Ascii.eqb c "."%char || Ascii.eqb c "!"%char || Ascii.eqb c "?"%char.

(** [re.split(r'[.!?]+', s)]: the pieces between the runs of sentence
    terminators, the empty pieces at both ends included. *)
Fixpoint split_aux (cur : list ascii) (in_sep : bool) (s : string)
  : list string :=
  match s with
  | EmptyString => [String.string_of_list_ascii (rev cur)]
  | String c r =>
      if is_sentence_end c
      then (if in_sep then split_aux [] true r
            else String.string_of_list_ascii (rev cur) :: split_aux [] true r)
      else split_aux (c :: cur) false r
  end.

Definition split_sentences (s : string) : list string := split_aux [] false s.

Definition len (s : string) : Z := Z.of_nat (String.length s).

(** The [for sentence in sentences] loop with its [continue] and [break]. *)
Fixpoint summary_loop (sentences : list string)
    (summary : string) (char_count sentence_count : Z) : string :=
  match sentences with
  | [] => summary
  | sentence :: rest =>
      let sentence := strip sentence in
      if String.eqb sentence "" then
        summary_loop rest summary char_count sentence_count
      else if (char_count + len sentence >? 200) || (sentence_count >=? 3)
      then summary
      else summary_loop rest (summary +:+ sentence +:+ ". ")
             (char_count + len sentence) (sentence_count + 1)
  end.

(** [ContentProcessor._generate_summary] *)
Definition generate_summary (content : string) : string :=
  if String.eqb content "" then ""
  else
    let content := strip (collapse_ws false content) in
    let sentences := split_sentences content in
    strip (summary_loop sentences "" 0 0).

End Summary.

(** ** Article records *)

Inductive Priority : Type := critical | high | medium | low.

#[global] Instance Priority_eq_dec : EqDecision Priority.
Proof. solve_decision. Defined.

(** The value stored under ['priority']. *)
Definition priority_text (p : Priority) : string :=
  match p with
  | critical => "critical"
  | high => "high"
  | medium => "medium"
  | low => "low"
  end.

(** One article dict.  The first six keys come from the scrapers, the last
    four are written by [process_articles]. *)
Record Article : Type := mkArticle {
  title : option string;
  content : option string;
  url : option string;
  source : option string;
  date : option string;
  hash : option string;
  relevance_score : option Z;
  processed_date : option string;
  summary : option string;
  priority : option Priority
}.

#[global] Instance Article_eq_dec : EqDecision Article.
Proof. solve_decision. Defined.

(** [article.get(key, '')] *)
Definition get (field : option string) : string := default "" field.

(** A raw record as the scrapers hand it over, without a hash. *)
Definition raw_article (t c d : string) : Article :=
  mkArticle (Some t) (Some c) None None (Some d) None None None None None.

(** ** Keyword tables of [ContentProcessor.__init__] *)

Definition high_priority : list string :=
  [ "artificial intelligence"; "machine learning"; "deep learning";
    "neural network"; "large language model"; "llm"; "gpt";
    "transformer"; "generative ai"; "chatbot"; "openai";
    "anthropic"; "google ai"; "microsoft ai"; "meta ai";
    "deepmind"; "hugging face"; "stability ai" ].

Definition medium_priority : list string :=
  [ "automation"; "computer vision"; "natural language";
    "nlp"; "ai model"; "algorithm"; "data science";
    "tensorflow"; "pytorch"; "keras"; "scikit-learn";
    "ai startup"; "ai funding"; "ai ethics"; "ai regulation" ].

Definition tech_context : list string :=
  [ "tech"; "technology"; "software"; "startup";
    "funding"; "vc"; "venture capital"; "investment";
    "api"; "platform"; "cloud"; "saas" ].

(** [self.ai_keywords.values()], in the insertion order of the dict. *)
Definition ai_keywords_values : list (list string) :=
  [ high_priority; medium_priority; tech_context ].

(** [f"{title} {content}"] over the lower-cased fields. *)
Definition combined_text (a : Article) : string :=
  Text.lower (get (title a)) +:+ " " +:+ Text.lower (get (content a)).

(** ** Relevance scorer *)

(** One pass of a weighted keyword loop: [weight] for a keyword found in
    the combined text, [bonus] more when the title has it too. *)
Definition weighted_step (weight bonus : Z) (title_l combined : string)
    (score : Z) (keyword : string) : Z :=
  if Text.contains keyword combined then
    let score := score + weight in
    if Text.contains keyword title_l then score + bonus else score
  else score.

Definition tech_step (combined : string) (tech_score : Z) (keyword : string)
  : Z :=
  if Text.contains keyword combined && (tech_score <? 3)
  then tech_score + 1 else tech_score.

(** [ContentProcessor._calculate_relevance_score] *)
Definition calculate_relevance_score (a : Article) : Z :=
  let title_l := Text.lower (get (title a)) in
  let content_l := Text.lower (get (content a)) in
  let combined := title_l +:+ " " +:+ content_l in
  let score := 0 in
  let score := fold_left (weighted_step 3 2 title_l combined) high_priority score in
  let score := fold_left (weighted_step 2 1 title_l combined) medium_priority score in
  let tech_score := fold_left (tech_step combined) tech_context 0 in
  score + tech_score.

(** ** Priority classifier *)

Definition critical_terms : list string :=
  [ "breakthrough"; "major announcement"; "new model";
    "gpt-5"; "gpt-4"; "claude"; "gemini"; "llama";
    "acquisition"; "merger"; "funding round"; "ipo";
    "partnership"; "collaboration"; "investment" ].

Definition high_priority_terms : list string :=
  [ "launch"; "release"; "unveil"; "introduce";
    "upgrade"; "improvement"; "feature"; "update";
    "research"; "study"; "paper"; "findings" ].

(** [any(term in text for term in terms)] *)
Definition any_term_in (terms : list string) (text : string) : bool :=
  existsb (fun term => Text.contains term text) terms.

(** [ContentProcessor._determine_priority] *)
Definition determine_priority (a : Article) (relevance_score : Z) : Priority :=
  let combined := combined_text a in
  if relevance_score >=? 10 then critical
  else if any_term_in critical_terms combined then critical
  else if (relevance_score >=? 6) || any_term_in high_priority_terms combined
  then high
  else if relevance_score >=? 4 then medium
  else low.

(** The two tests of the cascade,
    [any(term in combined_text for term in critical_terms)] and the same
    for [high_priority_terms]: the phrases are looked up in the code's
    [combined_text], which has a space between title and content. *)
Definition has_critical_indicator (a : Article) : bool :=
  any_term_in critical_terms (combined_text a).

Definition has_high_indicator (a : Article) : bool :=
  any_term_in high_priority_terms (combined_text a).

(** ** [list.sort(key=..., reverse=True)]

    Python's sort is stable, also with [reverse=True]: the result is in
    descending key order and records with equal keys keep their original
    relative order.  That determines the result, which the insertion sort
    below computes. *)

Section SortDesc.
Context {A K : Type} (key : A -> K) (ltb : K -> K -> bool).

Fixpoint insert_desc (x : A) (l : list A) : list A :=
  match l with
  | [] => [x]
  | y :: r => if ltb (key x) (key y) then y :: insert_desc x r else x :: l
  end.

Fixpoint sort_desc (l : list A) : list A :=
  match l with
  | [] => []
  | x :: r => insert_desc x (sort_desc r)
  end.

(** The order of the sorted list, given the order [before] of the list
    that is sorted: [x] may come before [y] when its key is not smaller
    and, if the keys are equivalent, [x] was before [y]. *)
Definition desc_then (before : A -> A -> Prop) (x y : A) : Prop :=
  ltb (key x) (key y) = false /\
  (ltb (key y) (key x) = false -> before x y).
End SortDesc.

(** ** The main pass *)

Definition set_hash (h : string) (a : Article) : Article :=
  mkArticle (title a) (content a) (url a) (source a) (date a) (Some h)
            (relevance_score a) (processed_date a) (summary a) (priority a).

(** The four assignments of the accepting branch of [process_articles]. *)
Definition enrich (score : Z) (now_iso : string) (a : Article) : Article :=
  mkArticle (title a) (content a) (url a) (source a) (date a) (hash a)
            (Some score) (Some now_iso)
            (Some (Summary.generate_summary (get (content a))))
            (Some (determine_priority a score)).

(** The sort key [(x['relevance_score'], x.get('date', ''))].  Every record
    that reaches the sort carries a score. *)
Definition sort_key (a : Article) : Z * string :=
  (default 0 (relevance_score a), get (date a)).

(** [k1 < k2] on tuples of an int and a str. *)
Definition key_ltb (k1 k2 : Z * string) : bool :=
  (k1.1 <? k2.1) || ((k1.1 =? k2.1) && String.ltb k1.2 k2.2).

(** What one call of [process_articles] carries from record to record. *)
Record ProcState : Type := mkProcState {
  processed_articles : list Article;
  seen_hashes : gset string;
  clock_reads : nat
}.

Section Processor.
(** [hashlib.md5(s.encode()).hexdigest()] *)
Variable md5_hex : string -> string.
(** [datetime.now().isoformat()] at the [n]-th reading of the clock made
    by one call of [process_articles]. *)
Variable now_iso : nat -> string.

(** [not article_hash]: the key is absent or holds the empty string. *)
Definition lacks_hash (a : Article) : bool :=
  match hash a with
  | None => true
  | Some h => String.eqb h ""
  end.

(** The hash [_is_duplicate] leaves in the record. *)
Definition article_hash (a : Article) : string :=
  if lacks_hash a then md5_hex (get (title a) +:+ get (content a))
  else get (hash a).

(** [ContentProcessor._is_duplicate]: the answer and the record with its
    ['hash'] key filled in. *)
Definition is_duplicate (seen : gset string) (a : Article)
  : bool * Article :=
  let h := article_hash a in
  (bool_decide (h ∈ seen), set_hash h a).

(** The body of the [for article in articles] loop of
    [process_articles], on the local [processed_articles], the
    instance's [seen_hashes] and the number of clock readings so far. *)
Definition process_step (st : ProcState) (article : Article) : ProcState :=
  let '(dup, article) := is_duplicate (seen_hashes st) article in
  if dup then st
  else
    let score := calculate_relevance_score article in
    if score >=? 2 then
      let article := enrich score (now_iso (clock_reads st)) article in
      {| processed_articles := processed_articles st ++ [article];
         seen_hashes := {[ get (hash article) ]} ∪ seen_hashes st;
         clock_reads := S (clock_reads st) |}
    else st.

Definition process_loop (articles : list Article) (st : ProcState)
  : ProcState :=
  fold_left process_step articles st.

(** [ContentProcessor.process_articles]: the returned list and the
    [seen_hashes] of the instance after the call. *)
Definition process_articles (seen : gset string)
    (articles : list Article) : list Article * gset string :=
  let st := process_loop articles
              {| processed_articles := []; seen_hashes := seen;
                 clock_reads := 0 |} in
  (sort_desc sort_key key_ltb (processed_articles st), seen_hashes st).

End Processor.

(** ** Near-duplicate pass *)

(** [set(re.findall(r'\b\w+\b', title))] *)
Definition title_words (title_l : string) : gset string :=
  list_to_set (Text.findall_words title_l).

(** [len(title_words & seen_words) / max(len(title_words), 1) > 0.8].
    The quotient of the two counts is compared with the float [0.8]; for
    word counts below [2^50] that is the comparison of [5 * overlap] with
    [4 * max(len, 1)] on integers, which is what is written here. *)
Definition overlaps (words seen_words : gset string) : bool :=
  4 * Z.max (Z.of_nat (size words)) 1 <? 5 * Z.of_nat (size (words ∩ seen_words)).

(** The inner [for seen_title in seen_titles] loop: it only decides whether
    some seen title overlaps, so the iteration order of the set is
    immaterial. *)
Definition near_duplicate (seen_titles : gset string) (title_l : string) : bool :=
  existsb (fun seen_title => overlaps (title_words title_l) (title_words seen_title))
          (elements seen_titles).

Fixpoint dedup_loop (articles unique_articles : list Article)
    (seen_titles : gset string) : list Article :=
  match articles with
  | [] => unique_articles
  | article :: rest =>
      let title_l := Text.lower (get (title article)) in
      if near_duplicate seen_titles title_l
      then dedup_loop rest unique_articles seen_titles
      else dedup_loop rest (unique_articles ++ [article])
                      ({[ title_l ]} ∪ seen_titles)
  end.

(** [ContentProcessor.deduplicate_articles] *)
Definition deduplicate_articles (articles : list Article) : list Article :=
  dedup_loop articles [] ∅.

(** ** Date filter *)

(** A naive [datetime] is the number of microseconds since
    0001-01-01T00:00:00; [datetime.min] is [0] and [datetime.max] is the
    last microsecond of 9999-12-31. *)
Definition us_per_day : Z := 86400 * 1000000.
Definition datetime_end : Z := 3652059 * us_per_day.
Definition max_timedelta_days : Z := 999999999.

(** [datetime.now() - timedelta(days=days_back)]; [None] is the
    [OverflowError] of [timedelta] or of the subtraction. *)
Definition cutoff_date (now days_back : Z) : option Z :=
  if (Z.abs days_back <=? max_timedelta_days) then
    let r := now - days_back * us_per_day in
    if (0 <=? r) && (r <? datetime_end) then Some r else None
  else None.

Definition date_formats : list string :=
  [ "%Y-%m-%d"; "%Y-%m-%dT%H:%M:%S"; "%a, %d %b %Y %H:%M:%S %Z" ].

Section DateFilter.
(** [datetime.strptime(date_string, format)]; [None] is its
    [ValueError]. *)
Variable strptime : string -> string -> option Z.

(** The [for date_format in ...] loop with its [else] clause: whether
    the record is appended.  The first format that parses decides; when none
    does the record is appended. *)
Fixpoint try_formats (article_date_str : string) (formats : list string)
    (cutoff : Z) : bool :=
  match formats with
  | [] => true
  | date_format :: rest =>
      match strptime (Text.split_T_head article_date_str)
                     (Text.split_T_head date_format) with
      | Some article_date => article_date >=? cutoff
      | None => try_formats article_date_str rest cutoff
      end
  end.

Fixpoint filter_loop (articles filtered_articles : list Article)
    (cutoff : Z) : list Article :=
  match articles with
  | [] => filtered_articles
  | article :: rest =>
      let article_date_str := get (date article) in
      if try_formats article_date_str date_formats cutoff
      then filter_loop rest (filtered_articles ++ [article]) cutoff
      else filter_loop rest filtered_articles cutoff
  end.

(** [ContentProcessor.filter_by_date]; [None] is an exception leaving
    the method. *)
Definition filter_by_date (now : Z) (articles : list Article)
    (days_back : Z) : option (list Article) :=
  match cutoff_date now days_back with
  | None => None
  | Some cutoff => Some (filter_loop articles [] cutoff)
  end.

(** The datetime the loop compares with the cutoff, if any attempt
    succeeds.  As in the code, an attempt reads the text before the first
    ['T'] of the date string against the pattern cut in the same way, so
    it never sees a time of day written after a ['T']. *)
Fixpoint first_parse (article_date_str : string) (formats : list string)
  : option Z :=
  match formats with
  | [] => None
  | date_format :: rest =>
      match strptime (Text.split_T_head article_date_str)
                     (Text.split_T_head date_format) with
      | Some d => Some d
      | None => first_parse article_date_str rest
      end
  end.


End DateFilter.

(** ** Trending topics *)

(** [topic_counts[keyword] += 1] on a [defaultdict(int)]: a new key goes
    to the end of the dict, an existing key keeps its place. *)
Fixpoint increment (keyword : string) (topic_counts : list (string * Z))
  : list (string * Z) :=
  match topic_counts with
  | [] => [(keyword, 1)]
  | (k, c) :: r =>
      if String.eqb keyword k then (k, c + 1) :: r
      else (k, c) :: increment keyword r
  end.

Definition count_keyword (combined : string)
    (topic_counts : list (string * Z)) (keyword : string) : list (string * Z) :=
  if Text.contains keyword combined then increment keyword topic_counts
  else topic_counts.

Definition count_article (topic_counts : list (string * Z)) (a : Article)
  : list (string * Z) :=
  let combined := combined_text a in
  fold_left (fun tc keyword_list => fold_left (count_keyword combined) keyword_list tc)
            ai_keywords_values topic_counts.

(** The dict [topic_counts] after the loop over the articles. *)
Definition topic_counts (articles : list Article) : list (string * Z) :=
  fold_left count_article articles [].

(** [ContentProcessor.get_trending_topics] *)
Definition get_trending_topics (articles : list Article) : list (string * Z) :=
  firstn 10 (sort_desc snd Z.ltb (topic_counts articles)).

(** ** Reference definitions used to state the properties *)

(** *** Relevance score as a sum over the tiers *)

(** Sum over a tier: [weight] per keyword found in [text], [bonus] more
    when the keyword is also found in [title_l]. *)
Fixpoint tier_sum (weight bonus : Z) (title_l text : string)
    (keywords : list string) : Z :=
  match keywords with
  | [] => 0
  | k :: r =>
      (if Text.contains k text
       then weight + (if Text.contains k title_l then bonus else 0)
       else 0) + tier_sum weight bonus title_l text r
  end.

(** Number of keywords found in [text]. *)
Fixpoint matches (text : string) (keywords : list string) : Z :=
  match keywords with
  | [] => 0
  | k :: r => (if Text.contains k text then 1 else 0) + matches text r
  end.

(** Total of the three tiers when keywords are looked up in [text]. *)
Definition tier_score (title_l text : string) : Z :=
  tier_sum 3 2 title_l text high_priority
  + tier_sum 2 1 title_l text medium_priority
  + Z.min 3 (matches text tech_context).

(** The score when matching is done against the concatenation of the
    lower-cased title and the lower-cased content. *)
Definition concat_relevance_score (a : Article) : Z :=
  let title_l := Text.lower (get (title a)) in
  tier_score title_l (title_l +:+ Text.lower (get (content a))).

(** The text the priority claim names: the lower-cased title and the
    lower-cased content with nothing between them. *)
Definition concat_text (a : Article) : string :=
  Text.lower (get (title a)) +:+ Text.lower (get (content a)).

(** The classifier when the indicator phrases are looked up in
    [concat_text]: the same cascade as [determine_priority], on the other
    text. *)
Definition concat_priority (a : Article) (relevance_score : Z) : Priority :=
  if relevance_score >=? 10 then critical
  else if any_term_in critical_terms (concat_text a) then critical
  else if (relevance_score >=? 6)
          || any_term_in high_priority_terms (concat_text a)
  then high
  else if relevance_score >=? 4 then medium
  else low.

(** *** Near-duplicate rule as a relation *)

(** The quotient [len(words & seen_words) / max(len(words), 1)] as a
    rational number. *)
Definition overlap_ratio (words seen_words : gset string) : Q :=
  Qmake (Z.of_nat (size (words ∩ seen_words)))
        (Z.to_pos (Z.max (Z.of_nat (size words)) 1)).

Definition title_l (a : Article) : string := Text.lower (get (title a)).

(** Word sets made of runs of letters and digits only. *)
Definition alnum_words (t : string) : gset string :=
  list_to_set (Text.runs Text.is_alnum t).

(** [near_dedup words accepted articles out]: going through [articles] in
    order with [accepted] the records accepted before, a candidate is
    dropped exactly when its word set overlaps that of an accepted record,
    and [out] lists the candidates that are kept. *)
Inductive near_dedup (words : string -> gset string)
  : list Article -> list Article -> list Article -> Prop :=
| near_dedup_nil accepted : near_dedup words accepted [] []
| near_dedup_drop accepted a rest out :
    (exists b, In b accepted /\
               overlaps (words (title_l a)) (words (title_l b)) = true) ->
    near_dedup words accepted rest out ->
    near_dedup words accepted (a :: rest) out
| near_dedup_keep accepted a rest out :
    ~ (exists b, In b accepted /\
                 overlaps (words (title_l a)) (words (title_l b)) = true) ->
    near_dedup words (accepted ++ [a]) rest out ->
    near_dedup words accepted (a :: rest) (a :: out).

(** The seen titles are those of the accepted records. *)
Definition titles_of (seen : gset string) (accepted : list Article) : Prop :=
  forall t, t ∈ seen <-> exists b, In b accepted /\ title_l b = t.

(** *** Counting and ranking keywords *)

(** The keywords in the enumeration order of the tier lists. *)
Definition all_keywords : list string := concat ai_keywords_values.

(** Number of records whose combined text contains the keyword. *)
Fixpoint occurrences (keyword : string) (articles : list Article) : Z :=
  match articles with
  | [] => 0
  | a :: r =>
      (if Text.contains keyword (combined_text a) then 1 else 0)
      + occurrences keyword r
  end.

(** Position of the first record containing the keyword (the length of
    the list when there is none). *)
Fixpoint first_record (keyword : string) (articles : list Article) : nat :=
  match articles with
  | [] => 0%nat
  | a :: r =>
      if Text.contains keyword (combined_text a) then 0%nat
      else S (first_record keyword r)
  end.

Fixpoint index_of (keyword : string) (l : list string) : nat :=
  match l with
  | [] => 0%nat
  | k :: r => if String.eqb keyword k then 0%nat else S (index_of keyword r)
  end.

(** Position of a keyword in the enumeration of the tier lists. *)
Definition tier_index (keyword : string) : nat := index_of keyword all_keywords.

(** [k1] is enumerated before [k2] in the tier lists. *)
Definition tier_order (k1 k2 : string) : Prop :=
  (tier_index k1 < tier_index k2)%nat.

(** [k1] is met before [k2] by the counting loops: in an earlier record,
    or in the same record and earlier in the tier lists. *)
Definition encountered_before (articles : list Article) (k1 k2 : string)
  : Prop :=
  (first_record k1 articles < first_record k2 articles)%nat \/
  (first_record k1 articles = first_record k2 articles /\
   (tier_index k1 < tier_index k2)%nat).

(** A ranking: at most ten entries, each with the number of records
    containing its keyword, in descending order of count, and entries of
    equal count in the order given by [tie]. *)
Definition ranking (tie : string -> string -> Prop)
    (articles : list Article) (result : list (string * Z)) : Prop :=
  (length result <= 10)%nat /\
  (forall k c, In (k, c) result -> c = occurrences k articles) /\
  (forall i j k1 c1 k2 c2, (i < j)%nat ->
     result !! i = Some (k1, c1) -> result !! j = Some (k2, c2) ->
     c2 <= c1 /\ (c1 = c2 -> tie k1 k2)).

(** [k in keys] *)
Definition mem (k : string) (keys : list string) : bool :=
  existsb (String.eqb k) keys.

(** The keys of the dict after [topic_counts[k] += 1]. *)
Definition add_key (k : string) (keys : list string) : list string :=
  if mem k keys then keys else keys ++ [k].

Definition keys_step (combined : string) (keys : list string) (k : string)
  : list string :=
  if Text.contains k combined then add_key k keys else keys.

(** The keys of [topic_counts] after the records, starting from [keys]. *)
Definition key_order_from (keys : list string) (articles : list Article)
  : list string :=
  fold_left (fun ks a => fold_left (keys_step (combined_text a)) all_keywords ks)
            articles keys.

(** [topic_counts.get(k, 0)] *)
Fixpoint count_of (k : string) (tc : list (string * Z)) : Z :=
  match tc with
  | [] => 0
  | (k', c) :: r => if String.eqb k k' then c else count_of k r
  end.

(** The order of the dict entries that the sort starts from. *)
Definition entry_before (articles : list Article) (p q : string * Z) : Prop :=
  encountered_before articles p.1 q.1.

(** *** An instance of [strptime] for running the date filter

    Zero-padded [YYYY-MM-DD] strings under the format [%Y-%m-%d], on which
    it gives midnight of that day as [datetime.strptime] does; everything
    else is rejected. *)

Definition digit (c : ascii) : option Z :=
  let n := nat_of_ascii c in
  if ((48 <=? n)%nat && (n <=? 57)%nat)%bool then Some (Z.of_nat n - 48) else None.

Definition is_leap (y : Z) : bool :=
  ((y mod 4 =? 0) && negb (y mod 100 =? 0)) || (y mod 400 =? 0).

Definition days_in_month (y m : Z) : Z :=
  if m =? 2 then (if is_leap y then 29 else 28)
  else if (m =? 4) || (m =? 6) || (m =? 9) || (m =? 11) then 30 else 31.

Definition days_before_year (y : Z) : Z :=
  let p := y - 1 in p * 365 + p / 4 - p / 100 + p / 400.

Fixpoint days_before_month (y : Z) (m : nat) : Z :=
  match m with
  | O => 0
  | S m' => match m' with
            | O => 0
            | _ => days_before_month y m' + days_in_month y (Z.of_nat m')
            end
  end.

Definition midnight (y m d : Z) : option Z :=
  if (1 <=? y) && (1 <=? m) && (m <=? 12) && (1 <=? d) && (d <=? days_in_month y m)
  then Some ((days_before_year y + days_before_month y (Z.to_nat m) + d - 1)
             * us_per_day)
  else None.

Definition strptime_ymd (date_string format : string) : option Z :=
  if String.eqb format "%Y-%m-%d" then
    match String.list_ascii_of_string date_string with
    | [y1; y2; y3; y4; s1; m1; m2; s2; d1; d2] =>
        if Ascii.eqb s1 "-"%char && Ascii.eqb s2 "-"%char then
          match digit y1, digit y2, digit y3, digit y4,
                digit m1, digit m2, digit d1, digit d2 with
          | Some a, Some b, Some c, Some d, Some e, Some f, Some g, Some h =>
              midnight (a * 1000 + b * 100 + c * 10 + d) (e * 10 + f) (g * 10 + h)
          | _, _, _, _, _, _, _, _ => None
          end
        else None
    | _ => None
    end
  else None.

(** *** The known patterns as they are written

    The date a date string parses to when it is read, whole, against
    the patterns of [date_formats] in turn: the first pattern that
    [strptime] accepts for the string gives the date. *)

Section KnownPatterns.
Variable strptime : string -> string -> option Z.



End KnownPatterns.

(** *** An instance of [strptime] for the three known patterns

    It reads the zero-padded spellings [YYYY-MM-DD],
    [YYYY-MM-DDTHH:MM:SS] and [Ddd, DD Mmm YYYY HH:MM:SS ZZZ] (English
    names with a capital, zone [UTC] or [GMT]) under their patterns, and
    gives the naive datetime [datetime.strptime] gives for them: the day
    name and the zone name are read and do not change the value.
    Everything else is rejected. *)











(** A stand-in for [md5] when the main pass is run on concrete records:
    the digest of a text is the text itself. *)
Definition text_digest (s : string) : string := s.

(** *** What the main pass leaves in an accepted record *)

Definition enriched (a : Article) : Prop :=
  relevance_score a = Some (calculate_relevance_score a) /\
  2 <= calculate_relevance_score a /\
  priority a = Some (determine_priority a (calculate_relevance_score a)) /\
  summary a = Some (Summary.generate_summary (get (content a))) /\
  (exists stamp, processed_date a = Some stamp).

(** [a] does not come after [b] in the descending order of the tuples
    (score, date): its score is larger, or the scores are equal and its
    date text is not smaller. *)
Definition tuple_desc (a b : Article) : Prop :=
  (sort_key b).1 < (sort_key a).1 \/
  ((sort_key a).1 = (sort_key b).1 /\
   String.compare (sort_key a).2 (sort_key b).2 <> Lt).

(** ** Further notions used to state properties of the pipeline *)

(** The tiers from [low] up to [critical]. *)
Definition priority_rank (p : Priority) : nat :=
  match p with
  | low => 0
  | medium => 1
  | high => 2
  | critical => 3
  end%nat.

(** The keys the scrapers fill are the same in both records. *)
Definition same_scraped_fields (a b : Article) : Prop :=
  title a = title b /\ content a = content b /\ url a = url b /\
  source a = source b /\ date a = date b.

(** ['hash'] as the main pass reads it once [_is_duplicate] has run. *)
Definition stored_hash (a : Article) : string := get (hash a).

(** A later record [y] is not a near duplicate of an earlier record [x]. *)
Definition later_not_near (x y : Article) : Prop :=
  overlaps (title_words (title_l y)) (title_words (title_l x)) = false.

(** ** From the collected records to the processed ones ([main.py])

    The part of [AICompetitorIntelligence.execute_intelligence_gathering]
    between the scraping and the reports: nothing is processed when no
    record was collected; otherwise the main pass, the date filter with a
    window of 7 days and the near-duplicate pass are run in this order
    and the trending topics are taken from what is left.  [None] is an
    exception leaving [filter_by_date]. *)

Section Gathering.
Variable md5_hex : string -> string.
Variable now_iso : nat -> string.
Variable strptime : string -> string -> option Z.

Definition intelligence_processing (seen : gset string) (now : Z)
    (all_articles : list Article)
  : option (list Article * list (string * Z)) :=
  match all_articles with
  | [] => Some ([], [])
  | _ :: _ =>
      let processed_articles :=
        (process_articles md5_hex now_iso seen all_articles).1 in
      match filter_by_date strptime now processed_articles 7 with
      | None => None
      | Some processed_articles =>
          let processed_articles := deduplicate_articles processed_articles in
          let trending_topics := get_trending_topics processed_articles in
          Some (processed_articles, trending_topics)
      end
  end.

End Gathering.

(** [article.get('priority', 'unknown')] *)
Definition priority_key (a : Article) : string :=
  match priority a with
  | Some p => priority_text p
  | None => "unknown"
  end.

(** The dict [priority_counts] of the summary statistics:
    [priority_counts[priority] = priority_counts.get(priority, 0) + 1]
    for each processed record. *)
Definition priority_counts (processed_articles : list Article)
  : list (string * Z) :=
  fold_left (fun counts a => increment (priority_key a) counts)
            processed_articles [].

(** ** Figures of the reports ([reports/report_generator.py])

    The report generator receives the processed records.  What it writes
    to files is left out; the figures and the selections it computes from
    the records are modelled here. *)

(** [a.get('priority') == 'critical'] *)
Definition is_critical (a : Article) : bool :=
  match priority a with
  | Some critical => true
  | _ => false
  end.

(** [a.get('priority') == 'high'] *)
Definition is_high (a : Article) : bool :=
  match priority a with
  | Some high => true
  | _ => false
  end.

Definition critical_articles (articles : list Article) : list Article :=
  List.filter is_critical articles.

Definition high_priority_articles (articles : list Article) : list Article :=
  List.filter is_high articles.

(** [article.get('source', 'Unknown')] *)
Definition source_key (a : Article) : string := default "Unknown" (source a).

(** [if source not in sources_data: sources_data[source] = []] followed by
    [sources_data[source].append(article)], on the insertion-ordered
    dict. *)
Fixpoint group_append (source : string) (a : Article)
    (sources_data : list (string * list Article))
  : list (string * list Article) :=
  match sources_data with
  | [] => [(source, [a])]
  | (s, l) :: r =>
      if String.eqb source s then (s, l ++ [a]) :: r
      else (s, l) :: group_append source a r
  end.

(** The dict [sources_data] of [generate_executive_report]. *)
Definition sources_data (articles : list Article)
  : list (string * list Article) :=
  fold_left (fun sd a => group_append (source_key a) a sd) articles [].

Definition total_sources (articles : list Article) : nat :=
  length (sources_data articles).

Definition total_articles (articles : list Article) : nat := length articles.

Definition high_priority_count (articles : list Article) : nat :=
  length (critical_articles articles) + length (high_priority_articles articles).

(** [x.get('relevance_score', 0)] *)
Definition score_of (a : Article) : Z := default 0 (relevance_score a).

(** [max(l, key=lambda x: x.get('relevance_score', 0))] once its first
    element is taken as the best so far: the first of the records with
    the largest score. *)
Fixpoint max_by_score_from (best : Article) (l : list Article) : Article :=
  match l with
  | [] => best
  | x :: r =>
      if score_of x >? score_of best then max_by_score_from x r
      else max_by_score_from best r
  end.

(** [max(source_articles, key=...)]; [None] is the [ValueError] of an
    empty list, which the report avoids by skipping empty groups. *)
Definition latest_article (source_articles : list Article) : option Article :=
  match source_articles with
  | [] => None
  | x :: r => Some (max_by_score_from x r)
  end.

(** [sorted(sources_data.items())]: the sources are pairwise different,
    so the order of the pairs is the ascending order of the source
    names. *)
Definition sorted_sources (sd : list (string * list Article))
  : list (string * list Article) :=
  sort_desc fst (fun k1 k2 => String.ltb k2 k1) sd.

(** The sections of the competitor analysis: for each source in that
    order, the source and its [latest_article]. *)
Definition competitor_analysis (articles : list Article)
  : list (string * Article) :=
  flat_map (fun '(s, source_articles) =>
              match latest_article source_articles with
              | Some latest => [(s, latest)]
              | None => []
              end)
           (sorted_sources (sources_data articles)).

(** [len(set(a.get('source', '') for a in articles))] of the JSON export
    and of the HTML dashboard. *)
Definition sources_monitored (articles : list Article) : nat :=
  size (list_to_set (map (fun a => get (source a)) articles) : gset string).

(** [sources_data.get(s, [])] *)
Fixpoint group_of (s : string) (sd : list (string * list Article))
  : list Article :=
  match sd with
  | [] => []
  | (s', l) :: r => if String.eqb s s' then l else group_of s r
  end.

(** ** Pure parts of the scrapers ([scrapers/web_scraper.py],
    [scrapers/google_scraper.py]) *)

(** [s.split()]: the maximal runs of characters that are not
    whitespace. *)
Definition split_ws (s : string) : list string :=
  Text.runs (fun c => negb (Text.is_space c)) s.

(** [' '.join(words)] *)
Fixpoint join_space (words : list string) : string :=
  match words with
  | [] => EmptyString
  | w :: r =>
      match r with
      | [] => w
      | _ :: _ => w +:+ " " +:+ join_space r
      end
  end.

(** [WebScraper._clean_content] *)
Definition clean_content (content : string) : string :=
  if String.eqb content "" then ""
  else
    let content := join_space (split_ws content) in
    let words := split_ws content in
    if (500 <? length words)%nat
    then join_space (firstn 500 words) +:+ "..."
    else content.

(** A word: not empty and without whitespace. *)
Definition is_word (w : string) : Prop :=
  w <> EmptyString /\
  Forall (fun c => Text.is_space c = false) (String.list_ascii_of_string w).

Definition skip_patterns : list string :=
  [ "javascript:"; "mailto:"; "tel:"; "#";
    "/tag/"; "/category/"; "/author/";
    "/search/"; "/login/"; "/register/" ].

Definition article_indicators : list string :=
  [ "/blog/"; "/news/"; "/article/"; "/post/";
    "/2024/"; "/2023/"; "/ai/"; "/artificial-intelligence" ].

(** [WebScraper._is_article_url] *)
Definition is_article_url (href base_url : string) : bool :=
  if String.eqb href "" then false
  else if existsb (fun pattern => Text.contains pattern (Text.lower href))
                  skip_patterns
  then false
  else existsb (fun indicator => Text.contains indicator (Text.lower href))
               article_indicators.

Definition google_skip_patterns : list string :=
  [ "?page="; "/blog/?"; "/blog/category/"; "/blog/tag/"; "/blog/author/" ].

(** [GoogleResearchScraper._is_valid_article_url] *)
Definition is_valid_article_url (url : string) : bool :=
  if String.eqb url "" || negb (Text.contains "/blog/" url) then false
  else negb (existsb (fun pattern => Text.contains pattern url)
                     google_skip_patterns).

(** [self.blog_url] *)
Definition blog_url : string := "https://research.google/blog/".

(** [f"{page}"] for an int. *)
Definition decimal (n : Z) : string :=
  DecimalString.NilZero.string_of_int (Z.to_int n).

(** The [page_url] of [extract_google_articles]. *)
Definition page_url (page : Z) : string :=
  if page >? 1 then blog_url +:+ "?page=" +:+ decimal page else blog_url.

(** [s.split(',')]: the pieces between the commas, empty ones included;
    [cur] is the piece being read, most recent character first. *)
Fixpoint split_comma_aux (cur : list ascii) (s : string) : list string :=
  match s with
  | EmptyString => [String.string_of_list_ascii (rev cur)]
  | String c r =>
      if Ascii.eqb c ","%char
      then String.string_of_list_ascii (rev cur) :: split_comma_aux [] r
      else split_comma_aux (c :: cur) r
  end.

Definition split_comma (s : string) : list string := split_comma_aux [] s.

(** [f"{x}"] for a value that is a text or [None]. *)
Definition format_optional (x : option string) : string :=
  match x with
  | Some s => s
  | None => "None"
  end.

(** [not x] for a value that is a text or [None]. *)
Definition is_falsy (x : option string) : bool :=
  match x with
  | Some s => String.eqb s ""
  | None => true
  end.

Section ScrapeArticle.
(** [hashlib.md5(s.encode()).hexdigest()] *)
Variable md5_hex : string -> string.
(** The text of the first element of the page that the CSS selector
    selects: [soup.select_one(selector)] followed by [get_text()];
    [None] when there is no such element or the selector is refused. *)
Variable select_one : string -> option string.

(** [WebScraper._extract_with_fallback] *)
Fixpoint extract_with_fallback (selectors : list string) : option string :=
  match selectors with
  | [] => None
  | selector :: rest =>
      let selector := Summary.strip selector in
      if String.eqb selector "" then extract_with_fallback rest
      else match select_one selector with
           | Some text => Some text
           | None => extract_with_fallback rest
           end
  end.

(** [WebScraper.scrape_article] once the page has been fetched: [netloc]
    is [urlparse(url).netloc] and [now_text] is [str(datetime.now())]. *)
Definition scrape_article (url netloc now_text : string)
    (selectors : gmap string string) : option Article :=
  let title :=
    extract_with_fallback (split_comma (default "" (selectors !! "title"))) in
  let content :=
    extract_with_fallback (split_comma (default "" (selectors !! "content"))) in
  let date :=
    extract_with_fallback (split_comma (default "" (selectors !! "date"))) in
  if is_falsy title then None
  else
    let content_hash :=
      md5_hex (format_optional title +:+ format_optional content) in
    Some
      {| title := Some (Summary.strip (format_optional title));
         content := Some (if is_falsy content then ""
                          else clean_content (format_optional content));
         url := Some url;
         source := Some netloc;
         date := Some (if is_falsy date then now_text
                       else Summary.strip (format_optional date));
         hash := Some content_hash;
         relevance_score := None;
         processed_date := None;
         summary := None;
         priority := None |}.

End ScrapeArticle.
(** A selector that gives nothing to [_extract_with_fallback]: blank, or
    selecting no element. *)
Definition gives_nothing (select_one : string -> option string)
    (selector : string) : Prop :=
  Summary.strip selector = EmptyString \/
  select_one (Summary.strip selector) = None.

(** A page to run the scraper on: it has one [h1] and one [article]
    element and nothing else that a selector could select. *)
Definition sample_page (selector : string) : option string :=
  if String.eqb selector "h1" then Some " GPT-5   is here "
  else if String.eqb selector "article"
  then Some "OpenAI   ships
 a new   model  "
  else None.

(** The selectors of a source as the configuration gives them. *)
Definition sample_selectors : gmap string string :=
  <["title" := "h2, h1"]> (<["content" := ".post,article"]> ∅).

#[global] Arguments calculate_relevance_score : simpl never.
#[global] Arguments determine_priority : simpl never.
#[global] Arguments Summary.generate_summary : simpl never.

(** * Properties *)

(** ** Relevance scorer *)

Lemma weighted_loop_sum weight bonus t text keywords score :
  fold_left (weighted_step weight bonus t text) keywords score
  = score + tier_sum weight bonus t text keywords.
Proof.
  revert score.
  induction keywords as [|k r IH]; intros score; simpl.
  - lia.
  - rewrite IH. unfold weighted_step.
    destruct (Text.contains k text), (Text.contains k t); lia.
Qed.

Lemma matches_nonneg text keywords : 0 <= matches text keywords.
Proof.
  induction keywords as [|k r IH]; simpl; [lia|].
  destruct (Text.contains k text); lia.
Qed.

Lemma tech_loop_capped text keywords tech_score :
  0 <= tech_score <= 3 ->
  fold_left (tech_step text) keywords tech_score
  = Z.min 3 (tech_score + matches text keywords).
Proof.
  revert tech_score.
  induction keywords as [|k r IH]; intros tech_score Hb; simpl.
  - lia.
  - pose proof (matches_nonneg text r) as Hm.
    unfold tech_step at 2.
    destruct (Text.contains k text); simpl.
    + destruct (Z.ltb_spec tech_score 3).
      * rewrite IH by lia. f_equal. lia.
      * rewrite IH by lia. lia.
    + rewrite IH by lia. f_equal.
Qed.

Lemma score_is_tier_score a :
  calculate_relevance_score a
  = tier_score (Text.lower (get (title a))) (combined_text a).
Proof.
  unfold calculate_relevance_score, tier_score, combined_text.
  rewrite !weighted_loop_sum, tech_loop_capped by lia.
  simpl. lia.
Qed.

(** C4, as the code has it: the relevance score is the sum of the three
    tiers, where a keyword matches when it is a substring of the
    lower-cased title, one space, and the lower-cased content put
    together; a high-priority match gives 3 and 2 more when the
    lower-cased title has the keyword, a medium-priority match gives 2 and
    1 more likewise, and the technology matches give 1 each up to a total
    of 3.  The score depends on the record through its lower-cased title
    and content only. *)
Theorem C4_relevance_score_tiers (a : Article) :
  calculate_relevance_score a
  = tier_sum 3 2 (Text.lower (get (title a))) (combined_text a) high_priority
    + tier_sum 2 1 (Text.lower (get (title a))) (combined_text a) medium_priority
    + Z.min 3 (matches (combined_text a) tech_context)
  /\ combined_text a
     = Text.lower (get (title a)) +:+ " " +:+ Text.lower (get (content a))
  /\ forall b : Article,
       Text.lower (get (title b)) = Text.lower (get (title a)) ->
       Text.lower (get (content b)) = Text.lower (get (content a)) ->
       calculate_relevance_score b = calculate_relevance_score a.
Proof.
  split; [apply score_is_tier_score|].
  split; [reflexivity|].
  intros b Ht Hc.
  rewrite !score_is_tier_score. unfold combined_text.
  rewrite Ht, Hc. reflexivity.
Qed.

Lemma C4_relevance_score_tiers_witness :
  calculate_relevance_score
    (raw_article "OpenAI Launches New LLM" "A Cloud API for startups" "2026-01-05")
  = calculate_relevance_score
    (raw_article "openai launches new llm" "a cloud api for startups" "").
Proof.
  apply (proj2 (proj2 (C4_relevance_score_tiers
           (raw_article "openai launches new llm" "a cloud api for startups" ""))));
    reflexivity.
Defined.

(** C4, as stated, fails: with the title "machine" and the content
    "learning" the code finds "machine learning" across the space it puts
    between the two and scores 3, where matching against the concatenation
    of title and content finds nothing and scores 0. *)
Lemma C4_concatenation_counterexample :
  calculate_relevance_score (raw_article "machine" "learning" "") = 3 /\
  concat_relevance_score (raw_article "machine" "learning" "") = 0 /\
  calculate_relevance_score (raw_article "machine" "learning" "")
  <> concat_relevance_score (raw_article "machine" "learning" "").
Proof. vm_compute. repeat split; congruence. Qed.

(** ** Priority classifier *)

Lemma prefix_app k : forall a b,
  String.prefix k a = true -> String.prefix k (a +:+ b) = true.
Proof.
  induction k as [|c k IH]; intros [|x a] b; simpl; try congruence.
  - now destruct b.
  - destruct (ascii_dec c x); [apply IH|congruence].
Qed.

Lemma contains_empty text : Text.contains EmptyString text = true.
Proof. now destruct text. Qed.

Lemma contains_app_l k a b :
  Text.contains k a = true -> Text.contains k (a +:+ b) = true.
Proof.
  induction a as [|x a IH]; simpl.
  - rewrite orb_false_r. destruct k; [intros _; apply contains_empty|].
    discriminate.
  - intros H. apply orb_true_iff in H. destruct H as [H|H].
    + apply (prefix_app _ (String x a) b) in H. simpl in H.
      now rewrite H.
    + rewrite (IH H). apply orb_true_r.
Qed.

Lemma contains_app_r k a b :
  Text.contains k b = true -> Text.contains k (a +:+ b) = true.
Proof.
  intros H. induction a as [|x a IH]; simpl; [assumption|].
  rewrite IH. apply orb_true_r.
Qed.

Lemma any_term_in_contains terms text term :
  In term terms -> Text.contains term text = true ->
  any_term_in terms text = true.
Proof.
  intros Hin Hc. unfold any_term_in. apply existsb_exists. eauto.
Qed.

(** C3, amended: the classifier takes the first rule that applies, in
    this order: a score of 10 or more is critical; else a critical
    indicator phrase is critical; else a score of 6 or more or a high
    indicator phrase is high; else a score of 4 or more is medium; else
    low.  So "acquisition" with score 3 is critical, score 6 is high,
    score 4 is medium and score 3 is low when no phrase is present.  The
    phrases are looked up in the lower-cased title, a single space and
    the lower-cased content joined in that order. *)
Theorem C3_priority_precedence (a : Article) (score : Z) :
  (10 <= score -> determine_priority a score = critical) /\
  (score < 10 -> has_critical_indicator a = true ->
     determine_priority a score = critical) /\
  (score < 10 -> has_critical_indicator a = false ->
     (6 <= score \/ has_high_indicator a = true) ->
     determine_priority a score = high) /\
  (score < 6 -> has_critical_indicator a = false ->
     has_high_indicator a = false -> 4 <= score ->
     determine_priority a score = medium) /\
  (score < 4 -> has_critical_indicator a = false ->
     has_high_indicator a = false ->
     determine_priority a score = low) /\
  (Text.contains "acquisition" (Text.lower (get (title a))) = true \/
   Text.contains "acquisition" (Text.lower (get (content a))) = true ->
     determine_priority a 3 = critical) /\
  (has_critical_indicator a = false ->
     determine_priority a 6 = high) /\
  (has_critical_indicator a = false -> has_high_indicator a = false ->
     determine_priority a 4 = medium /\ determine_priority a 3 = low) /\
  has_critical_indicator a
  = any_term_in critical_terms
      (Text.lower (get (title a)) +:+ " " +:+ Text.lower (get (content a))) /\
  has_high_indicator a
  = any_term_in high_priority_terms
      (Text.lower (get (title a)) +:+ " " +:+ Text.lower (get (content a))).
Proof.
  assert (Htext : forall A B C D E F G H I J : Prop,
            (A /\ B /\ C /\ D /\ E /\ F /\ G /\ H) -> I -> J ->
            A /\ B /\ C /\ D /\ E /\ F /\ G /\ H /\ I /\ J) by tauto.
  apply Htext; [|reflexivity|reflexivity]. clear Htext.
  unfold determine_priority, has_critical_indicator, has_high_indicator.
  assert (Hacq : Text.contains "acquisition" (Text.lower (get (title a))) = true \/
                 Text.contains "acquisition" (Text.lower (get (content a))) = true ->
                 any_term_in critical_terms (combined_text a) = true).
  { intros H. apply (any_term_in_contains _ _ "acquisition").
    - unfold critical_terms. simpl. tauto.
    - unfold combined_text. destruct H as [H|H].
      + now apply contains_app_l.
      + now apply contains_app_r, contains_app_r. }
  repeat split; intros;
    repeat match goal with
           | H : any_term_in _ _ = _ |- _ => rewrite H
           | H : Text.contains _ _ = true \/ Text.contains _ _ = true |- _ =>
               rewrite (Hacq H); clear H
           | H : _ \/ _ |- _ => destruct H
           end;
    rewrite ?orb_true_r; simpl;
    repeat match goal with
           | |- context [ ?x >=? ?y ] => destruct (Z.geb_spec x y); try lia
           end;
    reflexivity.
Qed.

Lemma C3_priority_precedence_witness :
  determine_priority
    (raw_article "Startup announces acquisition" "details to follow" "") 3
  = critical /\
  determine_priority (raw_article "quiet week" "nothing new" "") 11 = critical /\
  determine_priority (raw_article "quiet week" "nothing new" "") 6 = high /\
  determine_priority (raw_article "quiet week" "a product launch" "") 3 = high /\
  determine_priority (raw_article "quiet week" "nothing new" "") 4 = medium /\
  determine_priority (raw_article "quiet week" "nothing new" "") 3 = low.
Proof.
  pose (quiet := raw_article "quiet week" "nothing new" "").
  split; [|split; [|split; [|split; [|split]]]].
  - apply (proj1 (proj2 (proj2 (proj2 (proj2 (proj2
             (C3_priority_precedence
                (raw_article "Startup announces acquisition" "details to follow" "")
                3))))))).
    left. reflexivity.
  - apply (proj1 (C3_priority_precedence quiet 11)). lia.
  - apply (proj1 (proj2 (proj2 (proj2 (proj2 (proj2 (proj2
             (C3_priority_precedence quiet 6)))))))).
    reflexivity.
  - apply (proj1 (proj2 (proj2
             (C3_priority_precedence
                (raw_article "quiet week" "a product launch" "") 3))));
      [lia | reflexivity | right; reflexivity].
  - apply (proj1 (proj2 (proj2 (proj2 (C3_priority_precedence quiet 4)))));
      [lia | reflexivity | reflexivity | lia].
  - apply (proj1 (proj2 (proj2 (proj2 (proj2 (C3_priority_precedence quiet 3))))));
      [lia | reflexivity | reflexivity].
Defined.

(** C3, as stated, fails both ways.  With the title "new" and the
    content "model" the code finds the critical phrase "new model"
    across the space it puts between the two and answers critical, where
    the lower-cased title+content, "newmodel", has no indicator phrase
    and a score of 3 gives low.  With the title "Gem" and the content
    "ini" the title+content is "gemini", a critical phrase, where the
    code reads "gem ini", finds nothing and answers low. *)
Lemma C3_concatenation_counterexample :
  determine_priority (raw_article "new" "model" "") 3 = critical /\
  concat_priority (raw_article "new" "model" "") 3 = low /\
  determine_priority (raw_article "Gem" "ini" "") 3 = low /\
  concat_priority (raw_article "Gem" "ini" "") 3 = critical /\
  determine_priority (raw_article "new" "model" "") 3
  <> concat_priority (raw_article "new" "model" "") 3 /\
  determine_priority (raw_article "Gem" "ini" "") 3
  <> concat_priority (raw_article "Gem" "ini" "") 3.
Proof. vm_compute. repeat split; congruence. Qed.

(** ** The stable descending sort *)

Section SortDescFacts.
Context {A K : Type} (key : A -> K) (ltb : K -> K -> bool).
Hypothesis ltb_asym : forall a b, ltb a b = true -> ltb b a = false.
Hypothesis ltb_negtrans :
  forall a b c, ltb a b = false -> ltb b c = false -> ltb a c = false.

(** The order before the sort, which equal keys keep. *)
Variable before : A -> A -> Prop.

Lemma insert_desc_perm x l : Permutation (insert_desc key ltb x l) (x :: l).
Proof.
  induction l as [|y r IH]; simpl; [reflexivity|].
  destruct (ltb (key x) (key y)); [|reflexivity].
  rewrite IH. apply perm_swap.
Qed.

Lemma sort_desc_perm l : Permutation (sort_desc key ltb l) l.
Proof.
  induction l as [|x r IH]; simpl; [reflexivity|].
  rewrite insert_desc_perm. now constructor.
Qed.

Lemma insert_desc_sorted x l :
  Forall (before x) l ->
  StronglySorted (desc_then key ltb before) l ->
  StronglySorted (desc_then key ltb before) (insert_desc key ltb x l).
Proof.
  intros Hb Hs. induction Hs as [|y r Hs IH Hy]; simpl.
  - constructor; constructor.
  - inversion Hb as [|? ? Hxy Hxr]; subst.
    destruct (ltb (key x) (key y)) eqn:E.
    + constructor; [now apply IH|].
      eapply Permutation_Forall; [symmetry; apply insert_desc_perm|].
      constructor; [|assumption].
      split; [now apply ltb_asym|]. intros E'. congruence.
    + constructor; [now constructor|].
      constructor; [split; [assumption|now intros _]|].
      rewrite Forall_forall in Hy, Hxr |- *.
      intros z Hz. split.
      * apply ltb_negtrans with (key y); [assumption|]. apply Hy, Hz.
      * intros _. now apply Hxr.
Qed.

Lemma sort_desc_sorted l :
  StronglySorted before l ->
  StronglySorted (desc_then key ltb before) (sort_desc key ltb l).
Proof.
  induction 1 as [|x r Hs IH Hx]; simpl; [constructor|].
  apply insert_desc_sorted; [|assumption].
  eapply Permutation_Forall; [symmetry; apply sort_desc_perm|assumption].
Qed.
End SortDescFacts.

Lemma StronglySorted_trivial {A} (l : list A) :
  StronglySorted (fun _ _ => True) l.
Proof.
  induction l; constructor; [assumption|].
  apply Forall_forall. trivial.
Qed.

Lemma StronglySorted_weaken {A} (R Q : A -> A -> Prop) l :
  (forall x y, R x y -> Q x y) -> StronglySorted R l -> StronglySorted Q l.
Proof.
  intros HRQ. induction 1 as [|x r Hs IH Hx]; constructor; [assumption|].
  eapply List.Forall_impl; [|exact Hx]. auto.
Qed.

(** ** Order of text and of sort keys *)

Lemma ascii_compare_lt_trans a b c :
  Ascii.compare a b = Lt -> Ascii.compare b c = Lt -> Ascii.compare a c = Lt.
Proof.
  unfold Ascii.compare. rewrite !N.compare_lt_iff. lia.
Qed.

Lemma string_compare_lt_trans a : forall b c,
  String.compare a b = Lt -> String.compare b c = Lt -> String.compare a c = Lt.
Proof.
  induction a as [|x a IH]; intros [|y b] [|z c]; simpl; try congruence.
  destruct (Ascii.compare x y) eqn:Exy; try congruence;
    destruct (Ascii.compare y z) eqn:Eyz; try congruence.
  - apply Ascii.compare_eq_iff in Exy, Eyz. subst.
    rewrite (proj2 (N.compare_eq_iff _ _) eq_refl : Ascii.compare z z = Eq).
    apply IH.
  - apply Ascii.compare_eq_iff in Exy. subst. now rewrite Eyz.
  - apply Ascii.compare_eq_iff in Eyz. subst. now rewrite Exy.
  - now rewrite (ascii_compare_lt_trans _ _ _ Exy Eyz).
Qed.

Lemma string_compare_refl a : String.compare a a = Eq.
Proof.
  induction a as [|x a IH]; simpl; [reflexivity|].
  now rewrite (proj2 (N.compare_eq_iff _ _) eq_refl : Ascii.compare x x = Eq).
Qed.

Lemma string_ltb_asym a b : String.ltb a b = true -> String.ltb b a = false.
Proof.
  unfold String.ltb. rewrite (String.compare_antisym b a).
  destruct (String.compare a b); simpl; congruence.
Qed.

Lemma string_ltb_negtrans a b c :
  String.ltb a b = false -> String.ltb b c = false -> String.ltb a c = false.
Proof.
  unfold String.ltb.
  destruct (String.compare a b) eqn:Eab; try congruence; intros _;
    destruct (String.compare b c) eqn:Ebc; try congruence; intros _.
  - apply String.compare_eq_iff in Eab, Ebc. subst.
    now rewrite string_compare_refl.
  - apply String.compare_eq_iff in Eab. subst. now rewrite Ebc.
  - apply String.compare_eq_iff in Ebc. subst. now rewrite Eab.
  - rewrite String.compare_antisym.
    rewrite String.compare_antisym in Eab, Ebc.
    destruct (String.compare b a) eqn:Eba; try discriminate.
    destruct (String.compare c b) eqn:Ecb; try discriminate.
    now rewrite (string_compare_lt_trans _ _ _ Ecb Eba).
Qed.

Lemma key_ltb_asym k1 k2 : key_ltb k1 k2 = true -> key_ltb k2 k1 = false.
Proof.
  unfold key_ltb. intros H.
  apply orb_true_iff in H. apply orb_false_iff.
  destruct H as [H|H].
  - apply Z.ltb_lt in H. split; [apply Z.ltb_ge; lia|].
    apply andb_false_iff. left. apply Z.eqb_neq. lia.
  - apply andb_true_iff in H. destruct H as [He Hl].
    apply Z.eqb_eq in He. split; [apply Z.ltb_ge; lia|].
    apply andb_false_iff. right. now apply string_ltb_asym.
Qed.

Lemma key_ltb_false k1 k2 :
  key_ltb k1 k2 = false <->
  k2.1 < k1.1 \/ (k1.1 = k2.1 /\ String.compare k1.2 k2.2 <> Lt).
Proof.
  unfold key_ltb, String.ltb. rewrite orb_false_iff, andb_false_iff.
  rewrite Z.ltb_ge, Z.eqb_neq.
  split.
  - intros [H1 H2]. destruct (Z.eq_dec k1.1 k2.1) as [E|E]; [right|left; lia].
    split; [assumption|]. destruct H2 as [H2|H2]; [contradiction|].
    intros Hc. rewrite Hc in H2. discriminate.
  - intros [H|[H H']]; (split; [lia|]); [left; lia|right].
    destruct (String.compare k1.2 k2.2); congruence.
Qed.

Lemma key_ltb_negtrans k1 k2 k3 :
  key_ltb k1 k2 = false -> key_ltb k2 k3 = false -> key_ltb k1 k3 = false.
Proof.
  rewrite !key_ltb_false. intros [H1|[H1 H1']] [H2|[H2 H2']].
  - left; lia.
  - left; lia.
  - left; lia.
  - right. split; [lia|].
    pose proof (string_ltb_negtrans k1.2 k2.2 k3.2) as Ht.
    unfold String.ltb in Ht. intros E. rewrite E in Ht.
    destruct (String.compare k1.2 k2.2); try congruence;
      destruct (String.compare k2.2 k3.2); try congruence;
      specialize (Ht eq_refl eq_refl); discriminate.
Qed.

(** ** The main pass *)

Lemma score_ext a b :
  title a = title b -> content a = content b ->
  calculate_relevance_score a = calculate_relevance_score b.
Proof.
  unfold calculate_relevance_score. now intros -> ->.
Qed.

Lemma priority_ext a b score :
  title a = title b -> content a = content b ->
  determine_priority a score = determine_priority b score.
Proof.
  unfold determine_priority, combined_text. now intros -> ->.
Qed.

Section ProcessorFacts.
Variable md5_hex : string -> string.
Variable now_iso : nat -> string.

Lemma enrich_enriched h stamp a :
  2 <= calculate_relevance_score a ->
  enriched (enrich (calculate_relevance_score (set_hash h a)) stamp (set_hash h a)).
Proof.
  intros Hs.
  assert (E1 : calculate_relevance_score (set_hash h a)
               = calculate_relevance_score a)
    by (now apply score_ext).
  rewrite E1.
  set (e := enrich (calculate_relevance_score a) stamp (set_hash h a)).
  assert (E2 : calculate_relevance_score e = calculate_relevance_score a)
    by (now apply score_ext).
  unfold enriched. rewrite E2.
  split; [reflexivity|]. split; [assumption|].
  split; [|split; [reflexivity|now exists stamp]].
  cbn [priority e enrich]. apply (f_equal Some).
  apply priority_ext; reflexivity.
Qed.

Lemma step_enriched st a :
  Forall enriched (processed_articles st) ->
  Forall enriched (processed_articles (process_step md5_hex now_iso st a)).
Proof.
  intros Hst. unfold process_step, is_duplicate.
  destruct (bool_decide _); [assumption|].
  destruct (Z.geb_spec (calculate_relevance_score (set_hash (article_hash md5_hex a) a)) 2)
    as [Hge|Hlt]; [|assumption].
  cbn [processed_articles]. apply Forall_app. split; [assumption|].
  constructor; [|constructor].
  apply enrich_enriched.
  now rewrite <- (score_ext (set_hash (article_hash md5_hex a) a) a).
Qed.

Lemma loop_enriched articles st :
  Forall enriched (processed_articles st) ->
  Forall enriched (processed_articles (process_loop md5_hex now_iso articles st)).
Proof.
  revert st. induction articles as [|a r IH]; intros st Hst; simpl.
  - assumption.
  - apply IH. now apply step_enriched.
Qed.

Lemma process_articles_enriched (seen : gset string) (articles : list Article) :
  Forall enriched (process_articles md5_hex now_iso seen articles).1.
Proof.
  unfold process_articles. cbn [fst].
  eapply Permutation_Forall; [symmetry; apply sort_desc_perm|].
  apply loop_enriched. constructor.
Qed.

(** C1: every record of the list returned by [process_articles] carries
    its relevance score, which is at least 2, and its priority, summary
    and processing date. *)
Theorem C1_output_enriched (seen : gset string) (articles : list Article) :
  Forall (fun a =>
            enriched a /\
            exists score, relevance_score a = Some score /\ 2 <= score /\
                          priority a <> None /\ summary a <> None /\
                          processed_date a <> None)
         (process_articles md5_hex now_iso seen articles).1.
Proof.
  eapply List.Forall_impl; [|apply process_articles_enriched].
  intros a Ha. split; [assumption|].
  destruct Ha as (Hs & H2 & Hp & Hsum & [stamp Hd]).
  exists (calculate_relevance_score a).
  rewrite Hp, Hsum, Hd. repeat split; congruence.
Qed.

(** C8: the list returned by [process_articles] is in descending order
    of the tuples (relevance score, date), the date being compared as
    text: of two records of the list the earlier one has the larger
    score, or the same score and a date text that is not smaller.  The
    tuple of a record of the list is made of its ['relevance_score'] and
    of its ['date'], the empty text when it has none. *)
Theorem C8_output_sorted (seen : gset string) (articles : list Article) :
  StronglySorted tuple_desc (process_articles md5_hex now_iso seen articles).1 /\
  Forall (fun a => relevance_score a = Some (sort_key a).1 /\
                   (sort_key a).2 = get (date a))
         (process_articles md5_hex now_iso seen articles).1.
Proof.
  split.
  - unfold process_articles. cbn [fst].
    eapply StronglySorted_weaken;
      [|apply (sort_desc_sorted sort_key key_ltb key_ltb_asym key_ltb_negtrans
                 (fun _ _ => True)); apply StronglySorted_trivial].
    intros x y [H _]. now apply key_ltb_false.
  - eapply List.Forall_impl; [|apply process_articles_enriched].
    intros a (Hs & _). unfold sort_key. cbn [fst snd].
    split; [|reflexivity].
    destruct (relevance_score a) as [score|]; [reflexivity|discriminate].
Qed.

Lemma step_seen_mono st a h :
  h ∈ seen_hashes st -> h ∈ seen_hashes (process_step md5_hex now_iso st a).
Proof.
  intros Hh. unfold process_step, is_duplicate.
  destruct (bool_decide _); [assumption|].
  destruct (_ >=? _); [|assumption].
  simpl. set_solver.
Qed.

Lemma loop_seen_mono articles st h :
  h ∈ seen_hashes st -> h ∈ seen_hashes (process_loop md5_hex now_iso articles st).
Proof.
  revert st. induction articles as [|a r IH]; intros st Hh; simpl.
  - assumption.
  - apply IH. now apply step_seen_mono.
Qed.

Lemma step_relevant_seen st a :
  2 <= calculate_relevance_score a ->
  article_hash md5_hex a ∈ seen_hashes (process_step md5_hex now_iso st a).
Proof.
  intros Hs. unfold process_step, is_duplicate.
  destruct (bool_decide_reflect (article_hash md5_hex a ∈ seen_hashes st))
    as [Hin|Hin]; [assumption|].
  rewrite (score_ext (set_hash (article_hash md5_hex a) a) a) by reflexivity.
  destruct (Z.geb_spec (calculate_relevance_score a) 2); [|lia].
  simpl. set_solver.
Qed.

Lemma step_seen_skip st b :
  article_hash md5_hex b ∈ seen_hashes st -> process_step md5_hex now_iso st b = st.
Proof.
  intros Hin. unfold process_step, is_duplicate.
  now rewrite bool_decide_eq_true_2.
Qed.

Lemma loop_cons x l st :
  process_loop md5_hex now_iso (x :: l) st
  = process_loop md5_hex now_iso l (process_step md5_hex now_iso st x).
Proof. reflexivity. Qed.

Lemma loop_app l1 l2 st :
  process_loop md5_hex now_iso (l1 ++ l2) st
  = process_loop md5_hex now_iso l2 (process_loop md5_hex now_iso l1 st).
Proof. apply fold_left_app. Qed.

(** C10: the hash computed for a record without one depends on the
    concatenation of title and content only.  Two such records with the
    same concatenation get the same hash, and when the first has a
    score of at least 2 the second, wherever it comes later in the
    batch, is found in the seen hashes and skipped: the pass returns
    what it returns without it. *)
Theorem C10_hash_of_concatenation (a b : Article) :
  lacks_hash a = true -> lacks_hash b = true ->
  get (title a) +:+ get (content a) = get (title b) +:+ get (content b) ->
  article_hash md5_hex a = article_hash md5_hex b /\
  (2 <= calculate_relevance_score a ->
   forall (seen : gset string) (before between after : list Article),
     (is_duplicate md5_hex
        (seen_hashes (process_loop md5_hex now_iso (before ++ a :: between)
                           (mkProcState [] seen 0))) b).1 = true /\
     process_articles md5_hex now_iso seen (before ++ a :: between ++ b :: after)
     = process_articles md5_hex now_iso seen (before ++ a :: between ++ after)).
Proof.
  intros Ha Hb Heq.
  assert (Hh : article_hash md5_hex a = article_hash md5_hex b).
  { unfold article_hash. now rewrite Ha, Hb, Heq. }
  split; [assumption|].
  intros Hs seen before between after.
  assert (Hin : article_hash md5_hex b
                ∈ seen_hashes (process_loop md5_hex now_iso (before ++ a :: between)
                                    (mkProcState [] seen 0))).
  { rewrite loop_app, loop_cons. apply loop_seen_mono.
    rewrite <- Hh. now apply step_relevant_seen. }
  split.
  - unfold is_duplicate. simpl. now apply bool_decide_eq_true_2.
  - unfold process_articles.
    replace (before ++ a :: between ++ b :: after)
      with ((before ++ a :: between) ++ b :: after)
      by (now rewrite <- app_assoc).
    replace (before ++ a :: between ++ after)
      with ((before ++ a :: between) ++ after)
      by (now rewrite <- app_assoc).
    rewrite (loop_app (before ++ a :: between) (b :: after)).
    rewrite (loop_app (before ++ a :: between) after).
    rewrite loop_cons.
    now rewrite (step_seen_skip _ b Hin).
Qed.

End ProcessorFacts.

(** Of a record on a new model and a weather forecast, the main pass keeps
    the first, with score 9 and priority critical, and drops the second,
    whose score is 0. *)
Example process_articles_scenario :
  let out :=
    (process_articles text_digest (fun _ => "2026-11-03T09:00:00") ∅
       [mkArticle (Some "Breakthrough: New GPT-5 Model Unveiled")
                  (Some "OpenAI announces major funding round")
                  None (Some "TechNews") None None None None None None;
        mkArticle (Some "Weather forecast for Tuesday")
                  (Some "sunny skies expected")
                  None None None None None None None None]).1 in
  map title out = [Some "Breakthrough: New GPT-5 Model Unveiled"] /\
  map relevance_score out = [Some 9] /\
  map priority out = [Some critical] /\
  map summary out = [Some "OpenAI announces major funding round."].
Proof. vm_compute. repeat split. Qed.

Lemma C10_hash_of_concatenation_witness :
  article_hash text_digest (raw_article "ab" "" "")
  = article_hash text_digest (raw_article "a" "b" "") /\
  process_articles text_digest (fun _ => "2026-11-03T09:00:00") ∅
    [raw_article "gpt" "x" "2026-11-01"; raw_article "gp" "tx" "2026-11-02"]
  = process_articles text_digest (fun _ => "2026-11-03T09:00:00") ∅
    [raw_article "gpt" "x" "2026-11-01"].
Proof.
  split.
  - apply (C10_hash_of_concatenation text_digest (fun _ => "")
             (raw_article "ab" "" "") (raw_article "a" "b" ""));
      reflexivity.
  - apply (proj2 (C10_hash_of_concatenation text_digest
                    (fun _ => "2026-11-03T09:00:00")
                    (raw_article "gpt" "x" "2026-11-01")
                    (raw_article "gp" "tx" "2026-11-02")
                    eq_refl eq_refl eq_refl)
             ltac:(vm_compute; discriminate) ∅ [] [] []).
Defined.

(** ** Near-duplicate pass *)

Lemma dedup_loop_acc articles : forall unique seen,
  dedup_loop articles unique seen = unique ++ dedup_loop articles [] seen.
Proof.
  induction articles as [|a r IH]; intros unique seen; simpl.
  - now rewrite app_nil_r.
  - destruct (near_duplicate seen _); [apply IH|].
    rewrite IH, (IH [a]). now rewrite <- app_assoc.
Qed.

Lemma dedup_loop_keep a rest seen :
  near_duplicate seen (title_l a) = false ->
  dedup_loop (a :: rest) [] seen
  = a :: dedup_loop rest [] ({[ title_l a ]} ∪ seen).
Proof.
  intros H. simpl. fold (title_l a). rewrite H.
  now rewrite dedup_loop_acc.
Qed.

Lemma dedup_loop_drop a rest seen :
  near_duplicate seen (title_l a) = true ->
  dedup_loop (a :: rest) [] seen = dedup_loop rest [] seen.
Proof.
  intros H. simpl. fold (title_l a). now rewrite H.
Qed.

Lemma dedup_loop_idempotent articles : forall seen,
  dedup_loop (dedup_loop articles [] seen) [] seen = dedup_loop articles [] seen.
Proof.
  induction articles as [|a r IH]; intros seen.
  - reflexivity.
  - destruct (near_duplicate seen (title_l a)) eqn:E.
    + rewrite (dedup_loop_drop _ _ _ E). apply IH.
    + rewrite (dedup_loop_keep _ _ _ E), (dedup_loop_keep _ _ _ E).
      now rewrite IH.
Qed.

(** C9: the near-duplicate pass is idempotent: applied to its own output
    it returns that output, the same records in the same order. *)
Theorem C9_deduplicate_idempotent (articles : list Article) :
  deduplicate_articles (deduplicate_articles articles)
  = deduplicate_articles articles.
Proof. apply dedup_loop_idempotent. Qed.

Lemma near_duplicate_spec seen accepted t :
  titles_of seen accepted ->
  near_duplicate seen t = true <->
  exists b, In b accepted /\
            overlaps (title_words t) (title_words (title_l b)) = true.
Proof.
  intros Hs. unfold near_duplicate. rewrite existsb_exists. split.
  - intros (x & Hx & Ho).
    apply list_elem_of_In in Hx. apply elem_of_elements in Hx.
    apply Hs in Hx. destruct Hx as (b & Hb & <-). eauto.
  - intros (b & Hb & Ho). exists (title_l b). split; [|assumption].
    apply list_elem_of_In. apply elem_of_elements. apply Hs. eauto.
Qed.

Lemma titles_of_snoc seen accepted a :
  titles_of seen accepted ->
  titles_of ({[ title_l a ]} ∪ seen) (accepted ++ [a]).
Proof.
  intros Hs t. rewrite elem_of_union, elem_of_singleton. split.
  - intros [->|Ht]; [|apply Hs in Ht; destruct Ht as (b & Hb & <-)].
    + exists a. split; [apply in_or_app; right; now left|reflexivity].
    + exists b. split; [apply in_or_app; now left|reflexivity].
  - intros (b & Hb & <-). apply in_app_or in Hb.
    destruct Hb as [Hb|[->|[]]]; [right; apply Hs; eauto|now left].
Qed.

Lemma dedup_loop_near_dedup articles : forall seen accepted,
  titles_of seen accepted ->
  near_dedup title_words accepted articles (dedup_loop articles [] seen).
Proof.
  induction articles as [|a r IH]; intros seen accepted Hs.
  - constructor.
  - destruct (near_duplicate seen (title_l a)) eqn:E.
    + rewrite (dedup_loop_drop _ _ _ E).
      apply near_dedup_drop; [|now apply IH].
      now apply (near_duplicate_spec seen accepted).
    + rewrite (dedup_loop_keep _ _ _ E). apply near_dedup_keep.
      * intros Hx. apply (near_duplicate_spec seen accepted) in Hx;
          [congruence|assumption].
      * apply IH. now apply titles_of_snoc.
Qed.

Lemma overlaps_ratio words seen_words :
  overlaps words seen_words = true <->
  (8 # 10 < overlap_ratio words seen_words)%Q.
Proof.
  unfold overlaps, overlap_ratio, Qlt. cbn [Qnum Qden].
  rewrite Z.ltb_lt, Z2Pos.id by lia. lia.
Qed.

(** The rule is deterministic: it fixes the output. *)
Lemma near_dedup_functional words accepted articles out1 :
  near_dedup words accepted articles out1 ->
  forall out2, near_dedup words accepted articles out2 -> out1 = out2.
Proof.
  induction 1 as [acc|acc a rest out Hd H1 IH|acc a rest out Hd H1 IH];
    intros out2 H2; inversion H2; subst; try contradiction.
  - reflexivity.
  - now apply IH.
  - f_equal. now apply IH.
Qed.

(** C5, as the code has it: a title is lower-cased and cut into the set of
    its maximal runs of word characters, which are the letters, the
    digits and the underscore; going through the batch in order, a
    candidate is dropped exactly when more than 0.8 of its words (counted
    against at least 1) belong to the word set of a previously accepted
    title, and kept otherwise.  Of "OpenAI releases GPT-5 model today"
    and "OpenAI releases GPT-5 model" the second is dropped; "OpenAI
    releases GPT-5" and "Google releases Gemini 2" are both kept. *)
Theorem C5_near_duplicate_rule :
  (forall t, title_words t = list_to_set (Text.runs Text.is_word_char t)) /\
  (forall words seen_words,
     overlaps words seen_words = true <->
     (8 # 10 < overlap_ratio words seen_words)%Q) /\
  (forall articles,
     near_dedup title_words [] articles (deduplicate_articles articles)) /\
  (forall a b,
     title a = Some "OpenAI releases GPT-5 model today" ->
     title b = Some "OpenAI releases GPT-5 model" ->
     deduplicate_articles [a; b] = [a]) /\
  (forall a b,
     title a = Some "OpenAI releases GPT-5" ->
     title b = Some "Google releases Gemini 2" ->
     deduplicate_articles [a; b] = [a; b]).
Proof.
  split; [reflexivity|].
  split; [apply overlaps_ratio|].
  split.
  - intros articles. apply dedup_loop_near_dedup.
    intros t. split; [set_solver|]. intros (b & [] & _).
  - split; intros a b Ha Hb.
    + unfold deduplicate_articles.
      rewrite dedup_loop_keep, dedup_loop_drop; [reflexivity| |];
        unfold title_l; rewrite ?Ha, ?Hb; vm_compute; reflexivity.
    + unfold deduplicate_articles.
      rewrite dedup_loop_keep, dedup_loop_keep; [reflexivity| |];
        unfold title_l; rewrite ?Ha, ?Hb; vm_compute; reflexivity.
Qed.

Lemma C5_near_duplicate_rule_witness :
  deduplicate_articles
    [raw_article "OpenAI releases GPT-5 model today" "" "2026-11-01";
     raw_article "OpenAI releases GPT-5 model" "" "2026-11-02"]
  = [raw_article "OpenAI releases GPT-5 model today" "" "2026-11-01"] /\
  deduplicate_articles
    [raw_article "OpenAI releases GPT-5" "" "2026-11-01";
     raw_article "Google releases Gemini 2" "" "2026-11-02"]
  = [raw_article "OpenAI releases GPT-5" "" "2026-11-01";
     raw_article "Google releases Gemini 2" "" "2026-11-02"].
Proof.
  split.
  - apply (proj1 (proj2 (proj2 (proj2 C5_near_duplicate_rule)))); reflexivity.
  - apply (proj2 (proj2 (proj2 (proj2 C5_near_duplicate_rule)))); reflexivity.
Defined.

(** C5, as stated, fails: with word sets made of letters and digits only,
    "gpt_5 released" has the words of "GPT 5 released" and the rule drops
    it, whereas the code reads "gpt_5" as one word, finds one word out of
    two in common and keeps both records. *)
Lemma C5_alphanumeric_counterexample :
  deduplicate_articles
    [raw_article "GPT 5 released" "" ""; raw_article "gpt_5 released" "" ""]
  = [raw_article "GPT 5 released" "" ""; raw_article "gpt_5 released" "" ""] /\
  near_dedup alnum_words []
    [raw_article "GPT 5 released" "" ""; raw_article "gpt_5 released" "" ""]
    [raw_article "GPT 5 released" "" ""] /\
  ~ near_dedup alnum_words []
      [raw_article "GPT 5 released" "" ""; raw_article "gpt_5 released" "" ""]
      (deduplicate_articles
         [raw_article "GPT 5 released" "" ""; raw_article "gpt_5 released" "" ""]).
Proof.
  assert (Hcode : deduplicate_articles
            [raw_article "GPT 5 released" "" ""; raw_article "gpt_5 released" "" ""]
          = [raw_article "GPT 5 released" "" ""; raw_article "gpt_5 released" "" ""])
    by (vm_compute; reflexivity).
  assert (Hrule : near_dedup alnum_words []
            [raw_article "GPT 5 released" "" ""; raw_article "gpt_5 released" "" ""]
            [raw_article "GPT 5 released" "" ""]).
  { apply near_dedup_keep; [intros (b & [] & _)|].
    apply near_dedup_drop; [|constructor].
    exists (raw_article "GPT 5 released" "" "").
    split; [now left|vm_compute; reflexivity]. }
  split; [exact Hcode|]. split; [exact Hrule|].
  rewrite Hcode. intros H.
  pose proof (near_dedup_functional _ _ _ _ Hrule _ H) as E.
  discriminate E.
Qed.

(** ** Date filter *)

Section DateFilterFacts.
Variable strptime : string -> string -> option Z.

Lemma filter_loop_acc articles : forall filtered cutoff,
  filter_loop strptime articles filtered cutoff
  = filtered ++ filter_loop strptime articles [] cutoff.
Proof.
  induction articles as [|a r IH]; intros filtered cutoff;
    cbn [filter_loop].
  - now rewrite app_nil_r.
  - destruct (try_formats strptime (get (date a)) date_formats cutoff);
      [|apply IH].
    rewrite IH, (IH [a]). now rewrite <- app_assoc.
Qed.

Lemma try_formats_first_parse s formats cutoff :
  try_formats strptime s formats cutoff
  = match first_parse strptime s formats with
    | Some d => d >=? cutoff
    | None => true
    end.
Proof.
  induction formats as [|f r IH]; simpl; [reflexivity|].
  destruct (strptime _ _); [reflexivity|apply IH].
Qed.


Lemma cutoff_date_value now days_back cutoff :
  cutoff_date now days_back = Some cutoff ->
  cutoff = now - days_back * us_per_day.
Proof.
  unfold cutoff_date.
  destruct (_ <=? _); [|discriminate].
  destruct (_ && _); [|discriminate].
  congruence.
Qed.





End DateFilterFacts.





(** The cutoff carries the time of day of the clock while a date parsed
    from [YYYY-MM-DD] is at midnight: at noon of 2026-11-10 a record dated
    2026-11-03 is before the cutoff of 7 days and is dropped. *)
Example date_only_record_of_cutoff_day :
  filter_by_date strptime_ymd (63929865600000000 + 12 * 3600 * 1000000)
    [raw_article "a" "" "2026-11-03"; raw_article "b" "" "2026-11-04"] 7
  = Some [raw_article "b" "" "2026-11-04"].
Proof. reflexivity. Qed.

(** [datetime.now() - timedelta(days=days_back)] overflows for a
    [days_back] that reaches before year 1. *)
Example cutoff_overflow :
  filter_by_date strptime_ymd 63929865600000000
    [raw_article "a" "" "2026-11-03"] 800000 = None.
Proof. reflexivity. Qed.

(** ** Trending topics *)

(** *** The dict of counters *)

Lemma mem_In k keys : mem k keys = true <-> In k keys.
Proof.
  unfold mem. rewrite existsb_exists. split.
  - intros (x & Hx & E). apply String.eqb_eq in E. now subst.
  - intros H. exists k. split; [assumption|apply String.eqb_refl].
Qed.

Lemma mem_false k keys : mem k keys = false <-> k ∉ keys.
Proof.
  rewrite list_elem_of_In, <- mem_In.
  destruct (mem k keys); split; congruence.
Qed.

Lemma increment_keys k tc :
  map fst (increment k tc) = add_key k (map fst tc).
Proof.
  unfold add_key.
  induction tc as [|[k' c] r IH]; simpl; [reflexivity|].
  destruct (String.eqb k k') eqn:E; simpl; [reflexivity|].
  rewrite IH. fold (mem k (map fst r)).
  now destruct (mem k (map fst r)).
Qed.

Lemma increment_count k k' tc :
  count_of k' (increment k tc)
  = count_of k' tc + (if String.eqb k' k then 1 else 0).
Proof.
  induction tc as [|[k0 c] r IH]; simpl.
  - now destruct (String.eqb k' k).
  - destruct (String.eqb k k0) eqn:E; simpl.
    + apply String.eqb_eq in E. subst k0.
      destruct (String.eqb k' k); lia.
    + destruct (String.eqb k' k0) eqn:E'; [|apply IH].
      apply String.eqb_eq in E'. subst k0.
      rewrite String.eqb_sym, E. lia.
Qed.

Lemma count_keywords_keys text keywords : forall tc,
  map fst (fold_left (count_keyword text) keywords tc)
  = fold_left (keys_step text) keywords (map fst tc).
Proof.
  induction keywords as [|k r IH]; intros tc; simpl; [reflexivity|].
  rewrite IH. f_equal. unfold count_keyword, keys_step.
  destruct (Text.contains k text); [apply increment_keys|reflexivity].
Qed.

Lemma count_keywords_count text k' keywords : forall tc,
  NoDup keywords ->
  count_of k' (fold_left (count_keyword text) keywords tc)
  = count_of k' tc
    + (if mem k' keywords && Text.contains k' text then 1 else 0).
Proof.
  induction keywords as [|k r IH]; intros tc Hnd; simpl; [lia|].
  inversion Hnd as [|? ? Hk Hr]; subst.
  rewrite IH by assumption. fold (mem k' r).
  unfold count_keyword.
  destruct (String.eqb k' k) eqn:E.
  - apply String.eqb_eq in E. subst k'.
    rewrite (proj2 (mem_false k r) Hk). simpl.
    destruct (Text.contains k text); [|lia].
    rewrite increment_count, String.eqb_refl. lia.
  - simpl. destruct (Text.contains k text); [|reflexivity].
    rewrite increment_count, E. lia.
Qed.

Lemma all_keywords_NoDup : NoDup all_keywords.
Proof. apply (bool_decide_unpack _). vm_compute. exact I. Qed.

Lemma count_article_flat tc a :
  count_article tc a
  = fold_left (count_keyword (combined_text a)) all_keywords tc.
Proof.
  unfold count_article, all_keywords, ai_keywords_values.
  cbn [fold_left concat]. now rewrite app_nil_r, !fold_left_app.
Qed.

Lemma key_order_from_cons keys a r :
  key_order_from keys (a :: r)
  = key_order_from (fold_left (keys_step (combined_text a)) all_keywords keys) r.
Proof. reflexivity. Qed.

Lemma fold_left_cons {A B} (f : A -> B -> A) x l acc :
  fold_left f (x :: l) acc = fold_left f l (f acc x).
Proof. reflexivity. Qed.

Lemma topic_counts_keys articles : forall tc,
  map fst (fold_left count_article articles tc)
  = key_order_from (map fst tc) articles.
Proof.
  induction articles as [|a r IH]; intros tc; [reflexivity|].
  rewrite key_order_from_cons, fold_left_cons, IH.
  now rewrite count_article_flat, count_keywords_keys.
Qed.

Lemma topic_counts_count k articles : forall tc,
  count_of k (fold_left count_article articles tc)
  = count_of k tc + (if mem k all_keywords then occurrences k articles else 0).
Proof.
  induction articles as [|a r IH]; intros tc.
  - cbn [fold_left occurrences]. destruct (mem k all_keywords); lia.
  - rewrite fold_left_cons. cbn [occurrences].
    rewrite IH, count_article_flat,
      (count_keywords_count _ _ _ _ all_keywords_NoDup).
    destruct (mem k all_keywords), (Text.contains k (combined_text a));
      simpl; lia.
Qed.

Lemma add_key_NoDup k keys : NoDup keys -> NoDup (add_key k keys).
Proof.
  intros H. unfold add_key. destruct (mem k keys) eqn:E; [assumption|].
  apply mem_false in E. apply NoDup_app. split; [assumption|].
  split; [|apply NoDup_singleton].
  intros x Hx Hx'. apply list_elem_of_In in Hx'.
  destruct Hx' as [->|[]]. contradiction.
Qed.

Lemma keys_loop_NoDup text keywords : forall keys,
  NoDup keys -> NoDup (fold_left (keys_step text) keywords keys).
Proof.
  induction keywords as [|k r IH]; intros keys H; simpl; [assumption|].
  apply IH. unfold keys_step.
  destruct (Text.contains k text); [now apply add_key_NoDup|assumption].
Qed.

Lemma key_order_NoDup articles : forall keys,
  NoDup keys -> NoDup (key_order_from keys articles).
Proof.
  induction articles as [|a r IH]; intros keys H; [assumption|].
  apply IH. now apply keys_loop_NoDup.
Qed.

Lemma count_of_In k c tc :
  NoDup (map fst tc) -> In (k, c) tc -> count_of k tc = c.
Proof.
  induction tc as [|[k' c'] r IH]; simpl; [tauto|].
  intros Hnd [E|Hin].
  - inversion E; subst. now rewrite String.eqb_refl.
  - inversion Hnd as [|? ? Hk Hr]; subst.
    destruct (String.eqb k k') eqn:E; [|now apply IH].
    apply String.eqb_eq in E. subst k'.
    exfalso. apply Hk. apply list_elem_of_In.
    change k with (fst (k, c)). now apply in_map.
Qed.

(** *** Order of the keys in the dict *)

Lemma StronglySorted_weaken_In {A} (R Q : A -> A -> Prop) l :
  (forall x y, In x l -> In y l -> R x y -> Q x y) ->
  StronglySorted R l -> StronglySorted Q l.
Proof.
  intros HRQ Hs. induction Hs as [|x r Hs IH Hx].
  - constructor.
  - constructor.
    + apply IH. intros y z Hy Hz. apply HRQ; now right.
    + rewrite Forall_forall in Hx |- *. intros y Hy.
      apply list_elem_of_In in Hy.
      apply HRQ; [now left|now right|].
      apply Hx. now apply list_elem_of_In.
Qed.

Lemma StronglySorted_filter {A} (R : A -> A -> Prop) f l :
  StronglySorted R l -> StronglySorted R (List.filter f l).
Proof.
  induction 1 as [|x r Hs IH Hx]; simpl; [constructor|].
  destruct (f x); [|assumption].
  constructor; [assumption|].
  rewrite Forall_forall in Hx |- *. intros y Hy.
  apply Hx. apply list_elem_of_In. apply list_elem_of_In in Hy.
  now apply List.filter_In in Hy.
Qed.

Lemma StronglySorted_app {A} (R : A -> A -> Prop) l1 l2 :
  StronglySorted R l1 -> StronglySorted R l2 ->
  (forall x y, In x l1 -> In y l2 -> R x y) ->
  StronglySorted R (l1 ++ l2).
Proof.
  intros H1 H2 H12. induction H1 as [|x r Hs IH Hx]; simpl; [assumption|].
  constructor.
  - apply IH. intros y z Hy Hz. apply H12; [now right|assumption].
  - apply Forall_app. split; [assumption|].
    apply Forall_forall. intros y Hy. apply list_elem_of_In in Hy.
    apply H12; [now left|assumption].
Qed.

Lemma In_firstn {A} (x : A) n : forall l, In x (firstn n l) -> In x l.
Proof.
  induction n as [|n IH]; intros [|y l]; simpl; try tauto.
  intros [->|H]; [now left|right; now apply IH].
Qed.

Lemma StronglySorted_firstn {A} (R : A -> A -> Prop) n : forall l,
  StronglySorted R l -> StronglySorted R (firstn n l).
Proof.
  induction n as [|n IH]; intros l Hs; simpl; [constructor|].
  destruct Hs as [|x r Hs Hx]; [constructor|].
  constructor; [now apply IH|].
  rewrite Forall_forall in Hx |- *. intros y Hy.
  apply Hx. apply list_elem_of_In. apply list_elem_of_In in Hy.
  eapply In_firstn; eassumption.
Qed.

Lemma StronglySorted_lookup {A} (R : A -> A -> Prop) (l : list A) :
  StronglySorted R l ->
  forall i j x y, (i < j)%nat -> l !! i = Some x -> l !! j = Some y -> R x y.
Proof.
  induction 1 as [|z r Hs IH Hz]; intros i j x y Hij Hi Hj.
  - discriminate.
  - destruct j as [|j]; [lia|]. simpl in Hj.
    destruct i as [|i]; simpl in Hi.
    + inversion Hi; subst.
      rewrite Forall_forall in Hz. apply Hz.
      eapply list_elem_of_lookup_2; eassumption.
    + apply (IH i j); [lia|assumption|assumption].
Qed.

Lemma index_of_head k l : index_of k (k :: l) = 0%nat.
Proof. simpl. now rewrite String.eqb_refl. Qed.

Lemma index_of_tail k x l : k <> x -> index_of k (x :: l) = S (index_of k l).
Proof. intros H. simpl. now rewrite (proj2 (String.eqb_neq k x) H). Qed.

Lemma index_of_sorted l :
  NoDup l ->
  StronglySorted (fun x y => (index_of x l < index_of y l)%nat) l.
Proof.
  induction 1 as [|x r Hx Hnd IH]; [constructor|].
  assert (Hne : forall y, In y r -> y <> x).
  { intros y Hy ->. apply Hx. now apply list_elem_of_In. }
  constructor.
  - eapply StronglySorted_weaken_In; [|exact IH].
    intros y z Hy Hz Hyz. simpl in Hyz.
    rewrite !index_of_tail by auto. lia.
  - apply Forall_forall. intros y Hy. apply list_elem_of_In in Hy.
    rewrite index_of_head, index_of_tail by auto. lia.
Qed.

Lemma tier_index_sorted :
  StronglySorted (fun x y => (tier_index x < tier_index y)%nat) all_keywords.
Proof. apply index_of_sorted, all_keywords_NoDup. Qed.

Lemma mem_app_single k' ks k :
  k' <> k -> mem k' (ks ++ [k]) = mem k' ks.
Proof.
  intros Hne. unfold mem. rewrite existsb_app. simpl.
  rewrite (proj2 (String.eqb_neq k' k) Hne). now rewrite !orb_false_r.
Qed.

(** What one record adds to the keys: its keywords that are new, in the
    order of the tier lists. *)
Lemma keys_loop_filter text keywords : forall keys,
  NoDup keywords ->
  fold_left (keys_step text) keywords keys
  = keys ++ List.filter (fun k => Text.contains k text && negb (mem k keys))
                        keywords.
Proof.
  induction keywords as [|k r IH]; intros keys Hnd; simpl.
  - now rewrite app_nil_r.
  - inversion Hnd as [|? ? Hk Hr]; subst.
    rewrite IH by assumption. unfold keys_step, add_key.
    destruct (Text.contains k text); simpl; [|reflexivity].
    destruct (mem k keys); simpl; [reflexivity|].
    rewrite <- app_assoc. simpl. do 2 f_equal.
    apply List.filter_ext_in. intros k' Hk'.
    rewrite mem_app_single; [reflexivity|].
    intros ->. apply Hk. now apply list_elem_of_In.
Qed.

Lemma first_record_hit k a r :
  Text.contains k (combined_text a) = true -> first_record k (a :: r) = 0%nat.
Proof. intros H. simpl. now rewrite H. Qed.

Lemma first_record_miss k a r :
  Text.contains k (combined_text a) = false ->
  first_record k (a :: r) = S (first_record k r).
Proof. intros H. simpl. now rewrite H. Qed.

Lemma key_order_sorted articles : forall keys,
  exists new,
    key_order_from keys articles = keys ++ new /\
    StronglySorted (encountered_before articles) new /\
    forall k, In k new -> In k all_keywords /\ ~ In k keys.
Proof.
  induction articles as [|a r IH]; intros keys.
  - exists []. split; [now rewrite app_nil_r|]. split; [constructor|].
    intros k [].
  - rewrite key_order_from_cons.
    rewrite (keys_loop_filter _ _ _ all_keywords_NoDup).
    set (n1 := List.filter
                 (fun k => Text.contains k (combined_text a) && negb (mem k keys))
                 all_keywords).
    destruct (IH (keys ++ n1)) as (n2 & E & Hs2 & Hn2).
    rewrite E.
    exists (n1 ++ n2). split; [now rewrite app_assoc|].
    assert (Hn1 : forall k, In k n1 ->
              In k all_keywords /\
              Text.contains k (combined_text a) = true /\ ~ In k keys).
    { intros k Hk. apply List.filter_In in Hk. destruct Hk as [Hk Hc].
      apply andb_true_iff in Hc. destruct Hc as [Hc Hm].
      apply negb_true_iff in Hm.
      repeat split; try assumption.
      rewrite <- mem_In. congruence. }
    assert (Hmiss : forall k, In k n2 ->
              Text.contains k (combined_text a) = false).
    { intros k Hk. destruct (Hn2 k Hk) as [Hall Hnot].
      destruct (Text.contains k (combined_text a)) eqn:Hc; [|reflexivity].
      exfalso. apply Hnot. apply in_or_app.
      destruct (mem k keys) eqn:Hm; [left; now apply mem_In|right].
      apply List.filter_In. split; [assumption|]. now rewrite Hc, Hm. }
    split.
    + apply StronglySorted_app.
      * eapply StronglySorted_weaken_In;
          [|apply StronglySorted_filter, tier_index_sorted].
        intros x y Hx Hy Hxy. right. split; [|assumption].
        rewrite !first_record_hit; [reflexivity| |]; now apply Hn1.
      * eapply StronglySorted_weaken_In; [|exact Hs2].
        intros x y Hx Hy Hxy. unfold encountered_before in *.
        rewrite !first_record_miss by now apply Hmiss. lia.
      * intros x y Hx Hy. left.
        rewrite first_record_hit by now apply Hn1.
        rewrite first_record_miss by now apply Hmiss. lia.
    + intros k Hk. apply in_app_or in Hk. destruct Hk as [Hk|Hk].
      * destruct (Hn1 k Hk) as (H1 & _ & H3). now split.
      * destruct (Hn2 k Hk) as [H1 H2]. split; [assumption|].
        intros Hin. apply H2. apply in_or_app. now left.
Qed.

(** *** The ranking *)

Lemma StronglySorted_map {A B} (f : A -> B) (R : B -> B -> Prop) l :
  StronglySorted R (map f l) ->
  StronglySorted (fun x y => R (f x) (f y)) l.
Proof.
  induction l as [|x r IH]; simpl; intros H; [constructor|].
  apply StronglySorted_inv in H. destruct H as [Hs Hx].
  constructor; [now apply IH|].
  rewrite Forall_forall in Hx. rewrite Forall_forall.
  intros y Hy. apply Hx.
  apply list_elem_of_In. apply in_map. now apply list_elem_of_In.
Qed.

Lemma entries_sorted articles (tc : list (string * Z)) :
  StronglySorted (encountered_before articles) (map fst tc) ->
  StronglySorted (entry_before articles) tc.
Proof.
  intros H. apply StronglySorted_map in H. exact H.
Qed.

Lemma topic_counts_entries articles :
  NoDup (map fst (topic_counts articles)) /\
  StronglySorted (entry_before articles) (topic_counts articles) /\
  forall k c, In (k, c) (topic_counts articles) -> c = occurrences k articles.
Proof.
  unfold topic_counts.
  pose proof (topic_counts_keys articles []) as Hkeys. simpl in Hkeys.
  destruct (key_order_sorted articles []) as (new & E & Hs & Hnew).
  simpl in E. rewrite E in Hkeys.
  assert (Hnd : NoDup (map fst (fold_left count_article articles []))).
  { rewrite Hkeys, <- E. apply key_order_NoDup. constructor. }
  split; [assumption|]. split.
  - apply entries_sorted. now rewrite Hkeys.
  - intros k c Hin.
    rewrite <- (count_of_In k c _ Hnd Hin), topic_counts_count.
    cbn [count_of].
    assert (Hk : In k all_keywords).
    { apply Hnew. rewrite <- Hkeys. change k with (fst (k, c)).
      now apply in_map. }
    rewrite (proj2 (mem_In k all_keywords) Hk). lia.
Qed.

Lemma Z_ltb_asym a b : (a <? b) = true -> (b <? a) = false.
Proof. rewrite Z.ltb_lt, Z.ltb_ge. lia. Qed.

Lemma Z_ltb_negtrans a b c :
  (a <? b) = false -> (b <? c) = false -> (a <? c) = false.
Proof. rewrite !Z.ltb_ge. lia. Qed.

(** C6, as the code has it: the extractor returns at most 10 entries,
    each keyword with the number of records whose combined text (the
    lower-cased title, a space, the lower-cased content) contains it, in
    descending order of count; entries of equal count come in the order
    in which the counting loops first met their keywords: the keyword
    first found in an earlier record comes first, and of two keywords
    first found in the same record the one enumerated earlier in the
    tier lists. *)
Theorem C6_trending_ranking (articles : list Article) :
  ranking (encountered_before articles) articles (get_trending_topics articles).
Proof.
  destruct (topic_counts_entries articles) as (Hnd & Hs & Hc).
  unfold ranking, get_trending_topics.
  split; [rewrite length_firstn; lia|].
  split.
  - intros k c Hin. apply Hc.
    eapply Permutation_in; [apply (sort_desc_perm snd Z.ltb)|].
    eapply In_firstn; eassumption.
  - intros i j k1 c1 k2 c2 Hij Hi Hj.
    pose proof (StronglySorted_lookup _ _
                  (StronglySorted_firstn _ 10 _
                     (sort_desc_sorted snd Z.ltb Z_ltb_asym Z_ltb_negtrans
                        (entry_before articles) _ Hs))
                  i j (k1, c1) (k2, c2) Hij Hi Hj) as [Hge Htie].
    simpl in Hge, Htie. apply Z.ltb_ge in Hge.
    split; [assumption|].
    intros ->. apply Htie. apply Z.ltb_irrefl.
Qed.

Lemma C6_trending_ranking_witness :
  encountered_before
    [raw_article "OpenAI ships a new assistant" "" "2026-11-01";
     raw_article "A GPT for spreadsheets" "" "2026-11-02"]
    "openai" "gpt".
Proof.
  apply (proj2 (proj2 (proj2 (C6_trending_ranking
           [raw_article "OpenAI ships a new assistant" "" "2026-11-01";
            raw_article "A GPT for spreadsheets" "" "2026-11-02"]))
           0%nat 1%nat "openai" 1 "gpt" 1 ltac:(lia) eq_refl eq_refl)).
  reflexivity.
Defined.

(** C6, as stated, fails: when "openai" is found in the first record and
    "gpt" in the second, both are counted once and "openai" comes first
    in the result, although "gpt" is enumerated before "openai" in the
    tier lists. *)
Lemma C6_tier_order_counterexample :
  get_trending_topics
    [raw_article "OpenAI ships a new assistant" "" "2026-11-01";
     raw_article "A GPT for spreadsheets" "" "2026-11-02"]
  = [("openai", 1); ("gpt", 1)] /\
  tier_order "gpt" "openai" /\
  ~ ranking tier_order
      [raw_article "OpenAI ships a new assistant" "" "2026-11-01";
       raw_article "A GPT for spreadsheets" "" "2026-11-02"]
      (get_trending_topics
         [raw_article "OpenAI ships a new assistant" "" "2026-11-01";
          raw_article "A GPT for spreadsheets" "" "2026-11-02"]).
Proof.
  split; [vm_compute; reflexivity|].
  split; [vm_compute; lia|].
  intros (_ & _ & H).
  destruct (H 0%nat 1%nat "openai" 1 "gpt" 1 ltac:(lia) eq_refl eq_refl)
    as [_ Htie].
  specialize (Htie eq_refl). vm_compute in Htie. lia.
Qed.

(** * Further properties of the content processor *)

(** ** Range of the relevance score *)

Lemma tier_sum_bounds weight bonus t text keywords :
  0 <= weight -> 0 <= bonus ->
  0 <= tier_sum weight bonus t text keywords
  <= (weight + bonus) * Z.of_nat (length keywords).
Proof.
  intros Hw Hb. induction keywords as [|k r IH]; cbn [tier_sum length].
  - lia.
  - destruct (Text.contains k text), (Text.contains k t); lia.
Qed.

Lemma tier_sum_floor weight bonus t text keywords k :
  0 <= weight -> 0 <= bonus ->
  In k keywords -> Text.contains k text = true ->
  weight + (if Text.contains k t then bonus else 0)
  <= tier_sum weight bonus t text keywords.
Proof.
  intros Hw Hb Hin Hc. induction keywords as [|k' r IH]; [destruct Hin|].
  cbn [tier_sum].
  pose proof (tier_sum_bounds weight bonus t text r Hw Hb) as Hr.
  destruct Hin as [->|Hin].
  - rewrite Hc. lia.
  - specialize (IH Hin).
    destruct (Text.contains k' text), (Text.contains k' t); lia.
Qed.

(** The score is never negative and never above 138, the total of 5 for
    each of the 18 high-priority keywords, 3 for each of the 15 medium
    ones and 3 for the technology tier. *)
Theorem relevance_score_range (a : Article) :
  0 <= calculate_relevance_score a <= 138.
Proof.
  rewrite score_is_tier_score. unfold tier_score.
  pose proof (tier_sum_bounds 3 2 (Text.lower (get (title a)))
                (combined_text a) high_priority ltac:(lia) ltac:(lia)) as H1.
  pose proof (tier_sum_bounds 2 1 (Text.lower (get (title a)))
                (combined_text a) medium_priority ltac:(lia) ltac:(lia)) as H2.
  pose proof (matches_nonneg (combined_text a) tech_context) as H3.
  change (Z.of_nat (length high_priority)) with 18 in H1.
  change (Z.of_nat (length medium_priority)) with 15 in H2.
  lia.
Qed.

Lemma contains_combined_title k a :
  Text.contains k (Text.lower (get (title a))) = true ->
  Text.contains k (combined_text a) = true.
Proof. intros H. unfold combined_text. now apply contains_app_l. Qed.

Lemma contains_combined_content k a :
  Text.contains k (Text.lower (get (content a))) = true ->
  Text.contains k (combined_text a) = true.
Proof.
  intros H. unfold combined_text. now apply contains_app_r, contains_app_r.
Qed.

(** A keyword of the high- or medium-priority tier found in the title or
    in the content, whatever the case of the letters, is enough to reach
    the threshold of 2: a high-priority keyword gives at least 3, and 5
    when the title has it; a medium-priority keyword gives at least 2,
    and 3 when the title has it. *)
Theorem keyword_reaches_threshold (a : Article) (k : string) :
  (In k high_priority ->
   Text.contains k (Text.lower (get (title a))) = true ->
   5 <= calculate_relevance_score a) /\
  (In k high_priority ->
   Text.contains k (Text.lower (get (content a))) = true ->
   3 <= calculate_relevance_score a) /\
  (In k medium_priority ->
   Text.contains k (Text.lower (get (title a))) = true ->
   3 <= calculate_relevance_score a) /\
  (In k medium_priority ->
   Text.contains k (Text.lower (get (content a))) = true ->
   2 <= calculate_relevance_score a).
Proof.
  pose proof (tier_sum_bounds 3 2 (Text.lower (get (title a)))
                (combined_text a) high_priority ltac:(lia) ltac:(lia)) as H1.
  pose proof (tier_sum_bounds 2 1 (Text.lower (get (title a)))
                (combined_text a) medium_priority ltac:(lia) ltac:(lia)) as H2.
  pose proof (matches_nonneg (combined_text a) tech_context) as H3.
  rewrite score_is_tier_score. unfold tier_score.
  split; [|split; [|split]]; intros Hin Hc.
  - pose proof (tier_sum_floor 3 2 (Text.lower (get (title a))) _ _ k
                  ltac:(lia) ltac:(lia) Hin (contains_combined_title _ _ Hc)) as Hf.
    rewrite Hc in Hf. lia.
  - pose proof (tier_sum_floor 3 2 (Text.lower (get (title a))) _ _ k
                  ltac:(lia) ltac:(lia) Hin (contains_combined_content _ _ Hc)) as Hf.
    destruct (Text.contains k (Text.lower (get (title a)))); lia.
  - pose proof (tier_sum_floor 2 1 (Text.lower (get (title a))) _ _ k
                  ltac:(lia) ltac:(lia) Hin (contains_combined_title _ _ Hc)) as Hf.
    rewrite Hc in Hf. lia.
  - pose proof (tier_sum_floor 2 1 (Text.lower (get (title a))) _ _ k
                  ltac:(lia) ltac:(lia) Hin (contains_combined_content _ _ Hc)) as Hf.
    destruct (Text.contains k (Text.lower (get (title a)))); lia.
Qed.

Lemma keyword_reaches_threshold_witness :
  5 <= calculate_relevance_score
         (raw_article "Anthropic opens a new office" "Hiring starts soon" "") /\
  2 <= calculate_relevance_score
         (raw_article "Weekly digest" "Notes on NLP and more" "").
Proof.
  split.
  - apply (proj1 (keyword_reaches_threshold
                    (raw_article "Anthropic opens a new office" "Hiring starts soon" "")
                    "anthropic")).
    + unfold high_priority. simpl. tauto.
    + reflexivity.
  - apply (proj2 (proj2 (proj2 (keyword_reaches_threshold
                    (raw_article "Weekly digest" "Notes on NLP and more" "")
                    "nlp")))).
    + unfold medium_priority. simpl. tauto.
    + reflexivity.
Defined.

(** When the combined text (lower-cased title, a space, lower-cased
    content) has no keyword of the two upper tiers, the score is the
    number of technology keywords found, capped at 3: such a record
    never gets beyond 3, and is dropped by the threshold when it has
    fewer than two technology keywords. *)
Theorem technology_only_score (a : Article) :
  (forall k, In k high_priority \/ In k medium_priority ->
             Text.contains k (combined_text a) = false) ->
  calculate_relevance_score a = Z.min 3 (matches (combined_text a) tech_context) /\
  calculate_relevance_score a <= 3.
Proof.
  intros Hno.
  assert (Hz : forall w b kws,
             (forall k, In k kws -> Text.contains k (combined_text a) = false) ->
             tier_sum w b (Text.lower (get (title a))) (combined_text a) kws = 0).
  { intros w b kws Hk. induction kws as [|k r IH]; [reflexivity|].
    cbn [tier_sum]. rewrite (Hk k) by now left.
    rewrite IH; [reflexivity|]. intros k' Hk'. apply Hk. now right. }
  rewrite score_is_tier_score. unfold tier_score.
  rewrite !Hz by (intros k Hk; apply Hno; tauto).
  split; lia.
Qed.

Lemma technology_only_score_witness :
  calculate_relevance_score
    (raw_article "Cloud platform prices" "A software startup raises funding" "")
  <= 3.
Proof.
  apply (technology_only_score
           (raw_article "Cloud platform prices" "A software startup raises funding" "")).
  intros k Hk.
  unfold high_priority, medium_priority in Hk. simpl in Hk.
  repeat match goal with
         | H : _ \/ _ |- _ => destruct H
         | H : _ = k |- _ => subst k; reflexivity
         | H : False |- _ => destruct H
         end.
Defined.

(** ** The priority never goes down when the score goes up *)

Theorem priority_monotone (a : Article) (s1 s2 : Z) :
  s1 <= s2 ->
  (priority_rank (determine_priority a s1)
   <= priority_rank (determine_priority a s2))%nat.
Proof.
  intros Hle. unfold determine_priority.
  destruct (any_term_in critical_terms (combined_text a));
    destruct (any_term_in high_priority_terms (combined_text a));
    rewrite ?orb_true_r, ?orb_false_r;
    repeat match goal with
           | |- context [ ?x >=? ?y ] => destruct (Z.geb_spec x y); try lia
           end;
    simpl; lia.
Qed.

Lemma priority_monotone_witness :
  (priority_rank (determine_priority (raw_article "quiet week" "nothing new" "") 3)
   <= priority_rank (determine_priority (raw_article "quiet week" "nothing new" "") 7))%nat.
Proof.
  apply (priority_monotone (raw_article "quiet week" "nothing new" "") 3 7). lia.
Defined.

(** ** The summary generator *)

Lemma lstrip_length s : (String.length (Summary.lstrip s) <= String.length s)%nat.
Proof.
  induction s as [|c r IH]; simpl; [lia|].
  destruct (Text.is_space c); simpl; lia.
Qed.

Lemma length_of_list l :
  String.length (String.string_of_list_ascii l) = length l.
Proof. induction l as [|c r IH]; simpl; [reflexivity|now rewrite IH]. Qed.

Lemma length_to_list s :
  length (String.list_ascii_of_string s) = String.length s.
Proof. induction s as [|c r IH]; simpl; [reflexivity|now rewrite IH]. Qed.

Lemma string_rev_length s :
  String.length (Summary.string_rev s) = String.length s.
Proof.
  unfold Summary.string_rev.
  now rewrite length_of_list, length_rev, length_to_list.
Qed.

Lemma append_nil (b : string) : EmptyString +:+ b = b.
Proof. reflexivity. Qed.

Lemma append_cons x (a b : string) : String x a +:+ b = String x (a +:+ b).
Proof. reflexivity. Qed.

Lemma to_list_append s t :
  String.list_ascii_of_string (s +:+ t)
  = String.list_ascii_of_string s ++ String.list_ascii_of_string t.
Proof.
  induction s as [|c r IH]; rewrite ?append_nil, ?append_cons; simpl;
    congruence.
Qed.

Lemma string_rev_snoc s c :
  Summary.string_rev (s +:+ String c EmptyString)
  = String c (Summary.string_rev s).
Proof.
  unfold Summary.string_rev. rewrite to_list_append. simpl.
  rewrite rev_app_distr. reflexivity.
Qed.

Lemma string_rev_involutive s : Summary.string_rev (Summary.string_rev s) = s.
Proof.
  unfold Summary.string_rev.
  rewrite String.list_ascii_of_string_of_list_ascii, rev_involutive.
  apply String.string_of_list_ascii_of_string.
Qed.

Lemma rstrip_length s : (String.length (Summary.rstrip s) <= String.length s)%nat.
Proof.
  unfold Summary.rstrip. rewrite string_rev_length.
  pose proof (lstrip_length (Summary.string_rev s)) as H.
  now rewrite string_rev_length in H.
Qed.

Lemma strip_length s : (String.length (Summary.strip s) <= String.length s)%nat.
Proof.
  unfold Summary.strip.
  pose proof (rstrip_length (Summary.lstrip s)). pose proof (lstrip_length s).
  lia.
Qed.

Lemma rstrip_space_r s :
  Summary.rstrip (s +:+ " ") = Summary.rstrip s.
Proof.
  unfold Summary.rstrip. now rewrite string_rev_snoc.
Qed.

Lemma append_assoc (a b c : string) : (a +:+ b) +:+ c = a +:+ (b +:+ c).
Proof.
  induction a as [|x a IH]; rewrite ?append_nil, ?append_cons; congruence.
Qed.

Lemma append_length (a b : string) :
  String.length (a +:+ b) = (String.length a + String.length b)%nat.
Proof.
  induction a as [|x a IH]; rewrite ?append_nil, ?append_cons; simpl;
    congruence.
Qed.

Lemma lstrip_space_r s :
  Summary.lstrip (s +:+ " ")
  = match Summary.lstrip s with
    | EmptyString => EmptyString
    | String c r => String c r +:+ " "
    end.
Proof.
  induction s as [|c r IH]; [reflexivity|].
  rewrite append_cons. cbn [Summary.lstrip].
  destruct (Text.is_space c); [exact IH|reflexivity].
Qed.

(** A trailing space does not survive [strip]. *)
Lemma strip_space_r s : Summary.strip (s +:+ " ") = Summary.strip s.
Proof.
  unfold Summary.strip. rewrite lstrip_space_r.
  destruct (Summary.lstrip s) as [|c r]; [reflexivity|].
  apply rstrip_space_r.
Qed.

(** What the loop returns is what it was given or ends with a space, and
    is bounded by the two budgets of the loop: 200 characters of
    sentences and 3 sentences, each followed by a full stop and a
    space. *)
Lemma summary_loop_shape sentences : forall summary char_count sentence_count,
  0 <= char_count <= 200 -> 0 <= sentence_count <= 3 ->
  (Summary.summary_loop sentences summary char_count sentence_count = summary \/
   exists x, Summary.summary_loop sentences summary char_count sentence_count
             = x +:+ " ") /\
  Z.of_nat (String.length
              (Summary.summary_loop sentences summary char_count sentence_count))
  <= Z.of_nat (String.length summary)
     + (200 - char_count) + 2 * (3 - sentence_count).
Proof.
  induction sentences as [|s r IH]; intros summary cc sc Hcc Hsc;
    cbn [Summary.summary_loop].
  - split; [now left|lia].
  - destruct (String.eqb (Summary.strip s) "") eqn:E; [now apply IH|].
    destruct (Z.gtb_spec (cc + Summary.len (Summary.strip s)) 200) as [Hgt|Hle];
      cbn [orb].
    + split; [now left|lia].
    + destruct (Z.geb_spec sc 3) as [Hge|Hlt].
      * split; [now left|lia].
      * assert (Hlen : 0 <= Summary.len (Summary.strip s))
          by (unfold Summary.len; lia).
        destruct (IH (summary +:+ Summary.strip s +:+ ". ")
                     (cc + Summary.len (Summary.strip s)) (sc + 1)
                     ltac:(lia) ltac:(lia)) as [Hshape Hbound].
        split.
        -- right. destruct Hshape as [Heq|[x Hx]]; [|now exists x].
           exists (summary +:+ Summary.strip s +:+ "."). rewrite Heq.
           now rewrite !append_assoc.
        -- rewrite !append_length in Hbound. unfold Summary.len in *.
           simpl in Hbound. lia.
Qed.

(** A summary has at most 205 characters: up to 200 characters of
    sentences, a full stop after each of the at most 3 sentences and a
    space between them. *)
Theorem summary_length_bound (content : string) :
  (String.length (Summary.generate_summary content) <= 205)%nat.
Proof.
  unfold Summary.generate_summary.
  destruct (String.eqb content ""); [simpl; lia|].
  set (sentences := Summary.split_sentences _).
  destruct (summary_loop_shape sentences "" 0 0 ltac:(lia) ltac:(lia))
    as [[Heq|[x Hx]] Hbound].
  - rewrite Heq. simpl. lia.
  - rewrite Hx in Hbound |- *. rewrite strip_space_r.
    pose proof (strip_length x) as Hs.
    rewrite append_length in Hbound. simpl in Hbound. lia.
Qed.

Lemma split_aux_no_end s : forall cur in_sep,
  (forall c, In c (String.list_ascii_of_string s) ->
             Summary.is_sentence_end c = false) ->
  Summary.split_aux cur in_sep s
  = [String.string_of_list_ascii (rev cur ++ String.list_ascii_of_string s)].
Proof.
  induction s as [|c r IH]; intros cur in_sep Hno; simpl.
  - now rewrite app_nil_r.
  - rewrite (Hno c) by now left.
    rewrite IH by (intros c' Hc'; apply Hno; now right).
    simpl. now rewrite <- app_assoc.
Qed.

Lemma lstrip_fixed s :
  String.length (Summary.lstrip s) = String.length s -> Summary.lstrip s = s.
Proof.
  destruct s as [|c r]; simpl; [reflexivity|].
  destruct (Text.is_space c); [|reflexivity].
  pose proof (lstrip_length r). lia.
Qed.

Lemma strip_fixed_lstrip s : Summary.strip s = s -> Summary.lstrip s = s.
Proof.
  intros H. apply lstrip_fixed.
  pose proof (lstrip_length s) as H1.
  pose proof (rstrip_length (Summary.lstrip s)) as H2.
  unfold Summary.strip in H. rewrite H in H2. lia.
Qed.

Lemma strip_full_stop s :
  s <> EmptyString -> Summary.strip s = s ->
  Summary.strip (s +:+ ". ") = s +:+ ".".
Proof.
  intros Hne Hs.
  replace (s +:+ ". ") with ((s +:+ ".") +:+ " ")
    by (now rewrite append_assoc).
  rewrite strip_space_r. unfold Summary.strip.
  assert (Hl : Summary.lstrip (s +:+ ".") = s +:+ ".").
  { pose proof (strip_fixed_lstrip s Hs) as Hl.
    destruct s as [|c r]; [congruence|]. rewrite append_cons.
    cbn [Summary.lstrip] in Hl |- *.
    destruct (Text.is_space c); [|reflexivity].
    pose proof (lstrip_length r) as Hlen.
    apply (f_equal String.length) in Hl. simpl in Hl. lia. }
  rewrite Hl. unfold Summary.rstrip. rewrite string_rev_snoc.
  cbn [Summary.lstrip]. change (Text.is_space ".") with false. cbv iota.
  now rewrite <- string_rev_snoc, string_rev_involutive.
Qed.

(** A content that is a single sentence, whose only whitespace is
    single plain spaces between its words and which has no full stop,
    exclamation or question mark, is summarised by itself followed by a full stop when it has at
    most 200 characters, and by the empty text when it is longer: the
    loop stops at a first sentence that exceeds the budget. *)
Theorem summary_of_single_sentence (content : string) :
  content <> EmptyString ->
  Summary.collapse_ws false content = content ->
  Summary.strip content = content ->
  (forall c, In c (String.list_ascii_of_string content) ->
             Summary.is_sentence_end c = false) ->
  Summary.generate_summary content
  = if (String.length content <=? 200)%nat then content +:+ "." else EmptyString.
Proof.
  intros Hne Hws Hstrip Hno. unfold Summary.generate_summary.
  rewrite (proj2 (String.eqb_neq content "") Hne).
  rewrite Hws, Hstrip. unfold Summary.split_sentences.
  rewrite (split_aux_no_end content [] false Hno). cbn [rev app].
  rewrite String.string_of_list_ascii_of_string.
  cbn [Summary.summary_loop]. rewrite Hstrip.
  rewrite (proj2 (String.eqb_neq content "") Hne).
  unfold Summary.len.
  destruct (Nat.leb_spec (String.length content) 200) as [Hle|Hgt].
  - destruct (Z.gtb_spec (0 + Z.of_nat (String.length content)) 200); [lia|].
    cbn [orb Z.geb Z.compare]. rewrite append_nil.
    now apply strip_full_stop.
  - destruct (Z.gtb_spec (0 + Z.of_nat (String.length content)) 200); [|lia].
    reflexivity.
Qed.

Lemma summary_of_single_sentence_witness :
  Summary.generate_summary "OpenAI announces major funding round"
  = "OpenAI announces major funding round.".
Proof.
  apply (summary_of_single_sentence "OpenAI announces major funding round");
    [discriminate|reflexivity|reflexivity|].
  intros c Hc. simpl in Hc.
  repeat match goal with
         | H : _ \/ _ |- _ => destruct H
         | H : _ = c |- _ => subst c; reflexivity
         | H : False |- _ => destruct H
         end.
Defined.

(** ** The main pass and the seen hashes *)

Section ProcessorTrace.
Variable md5_hex : string -> string.
Variable now_iso : nat -> string.

Lemma stored_hash_enrich score stamp h a :
  stored_hash (enrich score stamp (set_hash h a)) = h.
Proof. reflexivity. Qed.

Lemma same_fields_enrich score stamp h a :
  same_scraped_fields (enrich score stamp (set_hash h a)) a.
Proof. unfold same_scraped_fields. repeat split. Qed.

(** The hash [_is_duplicate] would give to a record it has already been
    through is the one it left there. *)
Lemma article_hash_enrich score stamp a :
  article_hash md5_hex (enrich score stamp (set_hash (article_hash md5_hex a) a))
  = article_hash md5_hex a.
Proof.
  unfold article_hash at 1. unfold lacks_hash at 1.
  cbn [hash enrich set_hash title content].
  destruct (String.eqb (article_hash md5_hex a) "") eqn:E; [|reflexivity].
  unfold article_hash in E |- *.
  destruct (lacks_hash a) eqn:L; [reflexivity|].
  unfold lacks_hash in L. destruct (hash a) as [h|]; [|discriminate].
  unfold get in E. simpl in E. congruence.
Qed.

(** One turn of the loop leaves the state as it is, or appends one record
    and adds its hash, which was not seen before. *)
Lemma step_cases st a :
  process_step md5_hex now_iso st a = st \/
  exists e,
    process_step md5_hex now_iso st a
    = mkProcState (processed_articles st ++ [e])
                  ({[ stored_hash e ]} ∪ seen_hashes st)
                  (S (clock_reads st)) /\
    (stored_hash e ∉ seen_hashes st) /\
    hash e = Some (article_hash md5_hex a) /\
    article_hash md5_hex e = article_hash md5_hex a /\
    same_scraped_fields e a /\
    2 <= calculate_relevance_score a.
Proof.
  unfold process_step, is_duplicate.
  destruct (bool_decide_reflect (article_hash md5_hex a ∈ seen_hashes st))
    as [Hin|Hin]; [now left|].
  rewrite (score_ext (set_hash (article_hash md5_hex a) a) a) by reflexivity.
  destruct (Z.geb_spec (calculate_relevance_score a) 2) as [Hge|Hlt];
    [right|now left].
  eexists. split; [reflexivity|].
  rewrite stored_hash_enrich.
  split; [assumption|]. split; [reflexivity|].
  split; [apply article_hash_enrich|].
  split; [apply same_fields_enrich|assumption].
Qed.

(** What a run of the loop appends. *)
Lemma loop_trace articles : forall st,
  exists added,
    processed_articles (process_loop md5_hex now_iso articles st)
    = processed_articles st ++ added /\
    seen_hashes (process_loop md5_hex now_iso articles st)
    = list_to_set (map stored_hash added) ∪ seen_hashes st /\
    NoDup (map stored_hash added) /\
    (length added <= length articles)%nat /\
    forall e, In e added ->
      (stored_hash e ∉ seen_hashes st) /\
      article_hash md5_hex e = stored_hash e /\
      exists a, In a articles /\ same_scraped_fields e a /\
                hash e = Some (article_hash md5_hex a) /\
                2 <= calculate_relevance_score a.
Proof.
  induction articles as [|a r IH]; intros st.
  - exists []. cbn [process_loop fold_left map length].
    split; [now rewrite app_nil_r|]. split; [set_solver|].
    split; [constructor|]. split; [lia|]. intros e [].
  - rewrite loop_cons.
    destruct (step_cases st a) as [Hst|(e & Hst & Hnew & Hh & Hah & Hf & Hs)];
      rewrite Hst.
    + destruct (IH st) as (added & Hp & Hseen & Hnd & Hlen & Hall).
      exists added. split; [assumption|]. split; [assumption|].
      split; [assumption|]. split; [cbn [length]; lia|].
      intros x Hx. destruct (Hall x Hx) as (H1 & H2 & b & Hb & H3).
      split; [assumption|]. split; [assumption|].
      exists b. split; [now right|assumption].
    + destruct (IH (mkProcState (processed_articles st ++ [e])
                                ({[ stored_hash e ]} ∪ seen_hashes st)
                                (S (clock_reads st))))
        as (added & Hp & Hseen & Hnd & Hlen & Hall).
      cbn [processed_articles seen_hashes] in Hp, Hseen, Hall.
      exists (e :: added).
      split; [now rewrite Hp, <- app_assoc|].
      split; [rewrite Hseen; cbn [map]; set_solver|].
      split.
      { cbn [map]. constructor; [|assumption].
        intros Hin. apply list_elem_of_In, in_map_iff in Hin.
        destruct Hin as (x & Hx & Hxin).
        destruct (Hall x Hxin) as (H1 & _). apply H1. rewrite Hx. set_solver. }
      split; [cbn [length]; lia|].
      intros x [<-|Hx].
      * split; [assumption|].
        split; [unfold stored_hash; rewrite Hh; exact Hah|].
        exists a. split; [now left|]. split; [assumption|]. now split.
      * destruct (Hall x Hx) as (H1 & H2 & b & Hb & H3).
        split; [set_solver|]. split; [assumption|].
        exists b. split; [now right|assumption].
Qed.

Lemma process_articles_trace seen articles :
  exists added,
    Permutation (process_articles md5_hex now_iso seen articles).1 added /\
    (process_articles md5_hex now_iso seen articles).2
    = list_to_set (map stored_hash added) ∪ seen /\
    NoDup (map stored_hash added) /\
    (length added <= length articles)%nat /\
    forall e, In e added ->
      (stored_hash e ∉ seen) /\
      article_hash md5_hex e = stored_hash e /\
      exists a, In a articles /\ same_scraped_fields e a /\
                hash e = Some (article_hash md5_hex a) /\
                2 <= calculate_relevance_score a.
Proof.
  destruct (loop_trace articles (mkProcState [] seen 0))
    as (added & Hp & Hseen & Hnd & Hlen & Hall).
  cbn [processed_articles seen_hashes app] in Hp, Hseen, Hall.
  exists added. unfold process_articles. cbn [fst snd].
  rewrite Hp.
  split; [apply sort_desc_perm|]. split; [exact Hseen|].
  split; [exact Hnd|]. split; [exact Hlen|exact Hall].
Qed.

(** The hashes of the records returned by one call are pairwise
    different, none of them was in the seen hashes before the call, and
    after the call the seen hashes are the ones from before together with
    those of the returned records: no hash is entered for a record that
    is not returned, and none twice. *)
Theorem seen_hashes_after_call (seen : gset string) (articles : list Article) :
  NoDup (map stored_hash (process_articles md5_hex now_iso seen articles).1) /\
  (forall e, In e (process_articles md5_hex now_iso seen articles).1 ->
             stored_hash e ∉ seen) /\
  (process_articles md5_hex now_iso seen articles).2
  = list_to_set
      (map stored_hash (process_articles md5_hex now_iso seen articles).1)
    ∪ seen.
Proof.
  destruct (process_articles_trace seen articles)
    as (added & Hperm & Hseen & Hnd & _ & Hall).
  split; [now rewrite Hperm|]. split.
  - intros e He. apply Hall. eapply Permutation_in; eassumption.
  - rewrite Hseen. f_equal. apply list_to_set_perm_L.
    now rewrite Hperm.
Qed.

(** The pass returns no more records than it is given, and each returned
    record is a record of the batch with a score of at least 2 whose
    title, content, url, source and date are untouched and whose hash is
    the one [_is_duplicate] computes for it. *)
Theorem returned_records_come_from_batch
    (seen : gset string) (articles : list Article) :
  (length (process_articles md5_hex now_iso seen articles).1
   <= length articles)%nat /\
  forall e, In e (process_articles md5_hex now_iso seen articles).1 ->
    exists a, In a articles /\ same_scraped_fields e a /\
              hash e = Some (article_hash md5_hex a) /\
              2 <= calculate_relevance_score a.
Proof.
  destruct (process_articles_trace seen articles)
    as (added & Hperm & _ & _ & Hlen & Hall).
  split; [now rewrite (Permutation_length Hperm)|].
  intros e He. apply Hall. eapply Permutation_in; eassumption.
Qed.

Lemma loop_skip articles : forall st,
  (forall a, In a articles ->
     article_hash md5_hex a ∈ seen_hashes st \/ calculate_relevance_score a < 2) ->
  process_loop md5_hex now_iso articles st = st.
Proof.
  induction articles as [|a r IH]; intros st Hall; [reflexivity|].
  rewrite loop_cons.
  assert (Hst : process_step md5_hex now_iso st a = st).
  { destruct (Hall a ltac:(now left)) as [Hin|Hlt].
    - now apply step_seen_skip.
    - destruct (step_cases st a) as [H|(e & _ & _ & _ & _ & _ & Hs)];
        [assumption|lia]. }
  rewrite Hst. apply IH. intros x Hx. apply Hall. now right.
Qed.

Lemma loop_covers articles : forall st a,
  In a articles ->
  article_hash md5_hex a
  ∈ seen_hashes (process_loop md5_hex now_iso articles st) \/
  calculate_relevance_score a < 2.
Proof.
  induction articles as [|x r IH]; intros st a Hin; [destruct Hin|].
  rewrite loop_cons. destruct Hin as [->|Hin]; [|now apply IH].
  destruct (Z.lt_ge_cases (calculate_relevance_score a) 2) as [Hlt|Hge];
    [now right|left].
  apply loop_seen_mono. apply step_relevant_seen. lia.
Qed.

(** Once a batch has been through the pass, handing the same batch, or
    the records the pass returned, to the same instance again returns
    nothing and leaves the seen hashes as they are. *)
Theorem second_call_returns_nothing
    (seen : gset string) (articles : list Article) :
  let first := process_articles md5_hex now_iso seen articles in
  process_articles md5_hex now_iso first.2 articles = ([], first.2) /\
  process_articles md5_hex now_iso first.2 first.1 = ([], first.2).
Proof.
  cbn zeta.
  destruct (process_articles_trace seen articles)
    as (added & Hperm & Hseen & _ & _ & Hall).
  set (seen' := (process_articles md5_hex now_iso seen articles).2) in *.
  split.
  - unfold process_articles at 1.
    rewrite loop_skip; [reflexivity|]. cbn [seen_hashes].
    intros a Ha. unfold seen', process_articles. cbn [snd].
    now apply loop_covers.
  - unfold process_articles at 1.
    rewrite loop_skip; [reflexivity|]. cbn [seen_hashes].
    intros e He. left.
    assert (Hin : In e added) by (eapply Permutation_in; eassumption).
    destruct (Hall e Hin) as (_ & Hah & _).
    rewrite Hah, Hseen. apply elem_of_union_l, elem_of_list_to_set.
    apply list_elem_of_In, in_map, Hin.
Qed.

End ProcessorTrace.

(** ** The near-duplicate pass keeps an order-preserving selection *)

Lemma near_duplicate_false seen t :
  near_duplicate seen t = false <->
  forall s, s ∈ seen -> overlaps (title_words t) (title_words s) = false.
Proof.
  unfold near_duplicate. split.
  - intros H s Hs.
    destruct (overlaps (title_words t) (title_words s)) eqn:E; [|reflexivity].
    rewrite <- H. symmetry. apply existsb_exists. exists s.
    split; [|assumption]. apply list_elem_of_In. now apply elem_of_elements.
  - intros H.
    destruct (existsb _ (elements seen)) eqn:E; [|reflexivity].
    apply existsb_exists in E. destruct E as (s & Hs & Ho).
    apply list_elem_of_In in Hs. apply elem_of_elements in Hs.
    rewrite (H s Hs) in Ho. discriminate.
Qed.

Lemma near_duplicate_empty t : near_duplicate ∅ t = false.
Proof. apply near_duplicate_false. intros s Hs. set_solver. Qed.

Lemma overlaps_wordless seen_words :
  overlaps ∅ seen_words = false.
Proof.
  unfold overlaps. apply Z.ltb_ge.
  replace (∅ ∩ seen_words) with (∅ : gset string) by set_solver.
  rewrite size_empty. lia.
Qed.

Lemma overlaps_self words :
  overlaps words words = false -> words = ∅.
Proof.
  unfold overlaps. rewrite Z.ltb_ge.
  replace (words ∩ words) with words by set_solver.
  intros H. apply leibniz_equiv. apply size_empty_inv. lia.
Qed.

Lemma dedup_loop_sublist articles : forall seen,
  dedup_loop articles [] seen `sublist_of` articles.
Proof.
  induction articles as [|a r IH]; intros seen; [constructor|].
  destruct (near_duplicate seen (title_l a)) eqn:E.
  - rewrite (dedup_loop_drop _ _ _ E). now apply sublist_cons.
  - rewrite (dedup_loop_keep _ _ _ E). now apply sublist_skip.
Qed.

(** The pass returns a selection of the batch in the order of the batch,
    and the first record of a batch is always part of it. *)
Theorem deduplicate_selects_in_order (articles : list Article) :
  deduplicate_articles articles `sublist_of` articles /\
  (length (deduplicate_articles articles) <= length articles)%nat /\
  forall a rest, articles = a :: rest ->
    exists kept, deduplicate_articles articles = a :: kept.
Proof.
  split; [apply dedup_loop_sublist|].
  split; [apply sublist_length, dedup_loop_sublist|].
  intros a rest ->. unfold deduplicate_articles.
  rewrite (dedup_loop_keep a rest ∅ (near_duplicate_empty _)). eauto.
Qed.

Lemma deduplicate_selects_in_order_witness :
  exists kept,
    deduplicate_articles
      [raw_article "OpenAI releases GPT-5" "" "";
       raw_article "OpenAI releases GPT-5 today" "" ""]
    = raw_article "OpenAI releases GPT-5" "" "" :: kept.
Proof.
  apply (proj2 (proj2 (deduplicate_selects_in_order
           [raw_article "OpenAI releases GPT-5" "" "";
            raw_article "OpenAI releases GPT-5 today" "" ""]))
           (raw_article "OpenAI releases GPT-5" "" "")
           [raw_article "OpenAI releases GPT-5 today" "" ""]).
  reflexivity.
Defined.

Lemma dedup_loop_separated articles : forall seen,
  Forall (fun y => near_duplicate seen (title_l y) = false)
         (dedup_loop articles [] seen) /\
  StronglySorted later_not_near (dedup_loop articles [] seen).
Proof.
  induction articles as [|a r IH]; intros seen.
  - split; constructor.
  - destruct (near_duplicate seen (title_l a)) eqn:E.
    + rewrite (dedup_loop_drop _ _ _ E). apply IH.
    + rewrite (dedup_loop_keep _ _ _ E).
      destruct (IH ({[ title_l a ]} ∪ seen)) as [Hall Hs].
      split.
      * constructor; [assumption|].
        eapply List.Forall_impl; [|exact Hall].
        intros y Hy. rewrite near_duplicate_false in Hy |- *.
        intros s Hs'. apply Hy. set_solver.
      * constructor; [assumption|].
        eapply List.Forall_impl; [|exact Hall].
        intros y Hy. rewrite near_duplicate_false in Hy.
        apply Hy. set_solver.
Qed.

(** In what the pass returns no record is a near duplicate of a record
    that comes before it; in particular two returned records have the
    same title, up to the case of the letters, only when that title has
    no word at all. *)
Theorem deduplicate_output_separated (articles : list Article) :
  StronglySorted later_not_near (deduplicate_articles articles) /\
  forall i j x y, (i < j)%nat ->
    deduplicate_articles articles !! i = Some x ->
    deduplicate_articles articles !! j = Some y ->
    title_l x = title_l y -> title_words (title_l y) = ∅.
Proof.
  pose proof (proj2 (dedup_loop_separated articles ∅)) as Hs.
  split; [exact Hs|].
  intros i j x y Hij Hi Hj Ht.
  pose proof (StronglySorted_lookup _ _ Hs i j x y Hij Hi Hj) as Hno.
  unfold later_not_near in Hno. rewrite Ht in Hno.
  now apply overlaps_self.
Qed.

Lemma deduplicate_output_separated_witness :
  title_words (title_l (raw_article "!!!" "b" "")) = ∅.
Proof.
  apply (proj2 (deduplicate_output_separated
                  [raw_article "!!!" "a" ""; raw_article "!!!" "b" ""])
           0%nat 1%nat (raw_article "!!!" "a" "") (raw_article "!!!" "b" ""));
    [lia|reflexivity|reflexivity|reflexivity].
Defined.

Lemma dedup_loop_wordless articles a : forall seen,
  In a articles -> title_words (title_l a) = ∅ ->
  In a (dedup_loop articles [] seen).
Proof.
  induction articles as [|x r IH]; intros seen Hin Hw; [destruct Hin|].
  destruct (near_duplicate seen (title_l x)) eqn:E.
  - rewrite (dedup_loop_drop _ _ _ E). destruct Hin as [->|Hin].
    + exfalso. rewrite (proj2 (near_duplicate_false seen (title_l a))) in E;
        [discriminate|].
      intros s _. rewrite Hw. apply overlaps_wordless.
    + now apply IH.
  - rewrite (dedup_loop_keep _ _ _ E). destruct Hin as [->|Hin];
      [now left|right; now apply IH].
Qed.

(** A record whose title has no word, as when the title is missing or
    empty, is never taken for a near duplicate: the pass keeps every such
    record of the batch. *)
Theorem wordless_titles_are_kept (articles : list Article) (a : Article) :
  In a articles -> title_words (title_l a) = ∅ ->
  In a (deduplicate_articles articles).
Proof. intros Hin Hw. now apply dedup_loop_wordless. Qed.

Lemma wordless_titles_are_kept_witness :
  In (mkArticle None (Some "second body") None None None None None None None None)
     (deduplicate_articles
        [mkArticle None (Some "first body") None None None None None None None None;
         mkArticle None (Some "second body") None None None None None None None None]).
Proof.
  apply (wordless_titles_are_kept
           [mkArticle None (Some "first body") None None None None None None None None;
            mkArticle None (Some "second body") None None None None None None None None]);
    [right; left; reflexivity|reflexivity].
Defined.

(** ** The date filter as a selection *)

Section DateFilterSelection.
Variable strptime : string -> string -> option Z.

Lemma filter_loop_filter articles cutoff :
  filter_loop strptime articles [] cutoff
  = List.filter
      (fun a => try_formats strptime (get (date a)) date_formats cutoff)
      articles.
Proof.
  induction articles as [|a r IH]; [reflexivity|].
  cbn [filter_loop List.filter].
  destruct (try_formats strptime (get (date a)) date_formats cutoff);
    [|exact IH].
  rewrite filter_loop_acc, IH. reflexivity.
Qed.

Lemma list_filter_sublist {A} (f g : A -> bool) l :
  (forall a, f a = true -> g a = true) ->
  List.filter f l `sublist_of` List.filter g l.
Proof.
  intros Hfg. induction l as [|x r IH]; [constructor|].
  cbn [List.filter]. destruct (f x) eqn:E.
  - rewrite (Hfg x E). now apply sublist_skip.
  - destruct (g x); [now apply sublist_cons|assumption].
Qed.

Lemma list_filter_self_sublist {A} (f : A -> bool) l :
  List.filter f l `sublist_of` l.
Proof.
  induction l as [|x r IH]; [constructor|].
  cbn [List.filter]. destruct (f x);
    [now apply sublist_skip|now apply sublist_cons].
Qed.

Lemma list_filter_idempotent {A} (f : A -> bool) l :
  List.filter f (List.filter f l) = List.filter f l.
Proof.
  induction l as [|x r IH]; [reflexivity|].
  cbn [List.filter]. destruct (f x) eqn:E; [|assumption].
  cbn [List.filter]. now rewrite E, IH.
Qed.

Lemma try_formats_monotone s formats c1 c2 :
  c2 <= c1 ->
  try_formats strptime s formats c1 = true ->
  try_formats strptime s formats c2 = true.
Proof.
  intros Hle. rewrite !try_formats_first_parse.
  destruct (first_parse strptime s formats) as [d|]; [|trivial].
  intros H. apply Z.geb_le in H. apply Z.geb_le. lia.
Qed.

(** The filter returns a selection of the records in their order, and
    filtering its result again with the same clock and window changes
    nothing. *)
Theorem filter_by_date_selects_in_order
    (now days_back : Z) (articles out : list Article) :
  filter_by_date strptime now articles days_back = Some out ->
  out `sublist_of` articles /\
  filter_by_date strptime now out days_back = Some out.
Proof.
  unfold filter_by_date.
  destruct (cutoff_date now days_back) as [cutoff|]; [|discriminate].
  intros [= <-]. rewrite !filter_loop_filter.
  split; [apply list_filter_self_sublist|].
  now rewrite list_filter_idempotent.
Qed.

(** A wider window keeps at least what a narrower one keeps: with the
    same clock, the records kept for [d1] days are among those kept for
    [d2 >= d1] days, in the same order. *)
Theorem filter_by_date_window_monotone
    (now d1 d2 : Z) (articles out1 out2 : list Article) :
  d1 <= d2 ->
  filter_by_date strptime now articles d1 = Some out1 ->
  filter_by_date strptime now articles d2 = Some out2 ->
  out1 `sublist_of` out2.
Proof.
  intros Hle. unfold filter_by_date.
  destruct (cutoff_date now d1) as [c1|] eqn:E1; [|discriminate].
  destruct (cutoff_date now d2) as [c2|] eqn:E2; [|discriminate].
  intros [= <-] [= <-]. rewrite !filter_loop_filter.
  apply list_filter_sublist. intros a.
  apply try_formats_monotone.
  apply cutoff_date_value in E1, E2. subst. unfold us_per_day. lia.
Qed.

End DateFilterSelection.

Lemma filter_by_date_selects_in_order_witness :
  [raw_article "a" "" "2026-11-03"]
  `sublist_of` [raw_article "a" "" "2026-11-03"; raw_article "b" "" "2026-11-02"].
Proof.
  apply (proj1 (filter_by_date_selects_in_order strptime_ymd
                  63929865600000000 7
                  [raw_article "a" "" "2026-11-03"; raw_article "b" "" "2026-11-02"]
                  [raw_article "a" "" "2026-11-03"] eq_refl)).
Defined.

Lemma filter_by_date_window_monotone_witness :
  [raw_article "a" "" "2026-11-03"]
  `sublist_of` [raw_article "a" "" "2026-11-03"; raw_article "b" "" "2026-11-02"].
Proof.
  apply (filter_by_date_window_monotone strptime_ymd
           63929865600000000 7 8
           [raw_article "a" "" "2026-11-03"; raw_article "b" "" "2026-11-02"]
           [raw_article "a" "" "2026-11-03"]
           [raw_article "a" "" "2026-11-03"; raw_article "b" "" "2026-11-02"]);
    [lia|reflexivity|reflexivity].
Defined.

(** ** What the trending topics contain *)

Lemma occurrences_bounds k articles :
  0 <= occurrences k articles <= Z.of_nat (length articles).
Proof.
  induction articles as [|a r IH]; cbn [occurrences length]; [lia|].
  destruct (Text.contains k (combined_text a)); lia.
Qed.

Lemma key_order_matched articles : forall keys k,
  In k (key_order_from keys articles) ->
  In k keys \/ 0 < occurrences k articles.
Proof.
  induction articles as [|a r IH]; intros keys k Hin; [now left|].
  rewrite key_order_from_cons in Hin.
  rewrite (keys_loop_filter _ _ _ all_keywords_NoDup) in Hin.
  pose proof (occurrences_bounds k r) as Hr.
  destruct (IH _ _ Hin) as [Hk|Hk].
  - apply in_app_or in Hk. destruct Hk as [Hk|Hk]; [now left|right].
    apply List.filter_In in Hk. destruct Hk as [_ Hc].
    apply andb_true_iff in Hc. destruct Hc as [Hc _].
    cbn [occurrences]. rewrite Hc. lia.
  - right. cbn [occurrences].
    destruct (Text.contains k (combined_text a)); lia.
Qed.

Lemma count_of_absent k tc : ~ In k (map fst tc) -> count_of k tc = 0.
Proof.
  induction tc as [|[k' c] r IH]; cbn [count_of map fst]; [reflexivity|].
  intros Hn. destruct (String.eqb k k') eqn:E.
  - apply String.eqb_eq in E. subst. exfalso. apply Hn. now left.
  - apply IH. intros H. apply Hn. now right.
Qed.

Lemma topic_counts_key_facts articles k :
  In k (map fst (topic_counts articles)) ->
  In k all_keywords /\ 0 < occurrences k articles.
Proof.
  unfold topic_counts. rewrite topic_counts_keys. cbn [map].
  intros Hin. split.
  - destruct (key_order_sorted articles []) as (new & E & _ & Hnew).
    rewrite E in Hin. now apply Hnew.
  - destruct (key_order_matched articles [] k Hin) as [[]|H]. exact H.
Qed.

Lemma topic_counts_has articles k :
  In k all_keywords -> 0 < occurrences k articles ->
  In (k, occurrences k articles) (topic_counts articles).
Proof.
  intros Hk Hpos.
  destruct (topic_counts_entries articles) as (Hnd & _ & Hc).
  assert (Hcount : count_of k (topic_counts articles) = occurrences k articles).
  { unfold topic_counts. rewrite topic_counts_count. cbn [count_of].
    rewrite (proj2 (mem_In k all_keywords) Hk). lia. }
  destruct (in_dec String.string_dec k (map fst (topic_counts articles)))
    as [Hin|Hout].
  - apply in_map_iff in Hin. destruct Hin as ([k' c] & Hfst & Hin).
    cbn [fst] in Hfst. subst k'. now rewrite <- (Hc k c Hin).
  - rewrite (count_of_absent _ _ Hout) in Hcount. lia.
Qed.

Lemma sublist_map {A B} (f : A -> B) (l1 l2 : list A) :
  l1 `sublist_of` l2 -> map f l1 `sublist_of` map f l2.
Proof.
  induction 1; cbn [map]; [constructor|now apply sublist_skip|
                           now apply sublist_cons].
Qed.

Lemma sublist_In {A} (l1 l2 : list A) x :
  l1 `sublist_of` l2 -> In x l1 -> In x l2.
Proof.
  intros Hs Hx. apply list_elem_of_In.
  eapply elem_of_sublist; [apply list_elem_of_In|]; eassumption.
Qed.

Lemma trending_sublist articles :
  exists sorted,
    Permutation sorted (topic_counts articles) /\
    get_trending_topics articles = firstn 10 sorted /\
    StronglySorted (fun p q => q.2 <= p.2) sorted.
Proof.
  exists (sort_desc snd Z.ltb (topic_counts articles)).
  split; [apply sort_desc_perm|]. split; [reflexivity|].
  eapply StronglySorted_weaken;
    [|apply (sort_desc_sorted snd Z.ltb Z_ltb_asym Z_ltb_negtrans
               (fun _ _ => True)); apply StronglySorted_trivial].
  intros p q [H _]. now apply Z.ltb_ge in H.
Qed.

(** Without records there are no trending topics.  In general the
    keywords of the result are pairwise different keywords of the three
    tiers, and each comes with a count of at least 1 and at most the
    number of records: a keyword found in no record is not listed. *)
Theorem trending_topics_entries (articles : list Article) :
  get_trending_topics [] = [] /\
  NoDup (map fst (get_trending_topics articles)) /\
  forall k c, In (k, c) (get_trending_topics articles) ->
    In k all_keywords /\ 1 <= c <= Z.of_nat (length articles).
Proof.
  split; [reflexivity|].
  destruct (trending_sublist articles) as (sorted & Hperm & -> & _).
  destruct (topic_counts_entries articles) as (Hnd & _ & Hc).
  assert (Hsub : firstn 10 sorted `sublist_of` sorted) by apply sublist_take.
  split.
  - assert (Hs1 : map fst (firstn 10 sorted) `sublist_of` map fst sorted)
      by apply sublist_map, Hsub.
    assert (Hn1 : NoDup (map fst sorted)) by now rewrite Hperm.
    eapply sublist_NoDup; eassumption.
  - intros k c Hin.
    assert (Htc : In (k, c) (topic_counts articles)).
    { eapply Permutation_in; [exact Hperm|].
      eapply sublist_In; eassumption. }
    assert (Hk : In k (map fst (topic_counts articles))).
    { change k with (fst (k, c)). now apply in_map. }
    destruct (topic_counts_key_facts articles k Hk) as [Hall Hpos].
    split; [assumption|]. rewrite (Hc k c Htc).
    pose proof (occurrences_bounds k articles). lia.
Qed.

Lemma trending_topics_entries_witness :
  In "openai" all_keywords /\
  1 <= 1 <= Z.of_nat
              (length [raw_article "OpenAI ships a new assistant" "" "2026-11-01";
                       raw_article "A GPT for spreadsheets" "" "2026-11-02"]).
Proof.
  apply (proj2 (proj2 (trending_topics_entries
           [raw_article "OpenAI ships a new assistant" "" "2026-11-01";
            raw_article "A GPT for spreadsheets" "" "2026-11-02"]))
           "openai" 1).
  vm_compute. left. reflexivity.
Defined.

Lemma StronglySorted_app_inv {A} (R : A -> A -> Prop) l1 l2 :
  StronglySorted R (l1 ++ l2) ->
  forall x y, In x l1 -> In y l2 -> R x y.
Proof.
  induction l1 as [|z l1 IH]; intros Hs x y Hx Hy; [destruct Hx|].
  cbn [app] in Hs. apply StronglySorted_inv in Hs. destruct Hs as [Hs Hz].
  destruct Hx as [->|Hx]; [|now apply IH].
  rewrite Forall_forall in Hz. apply Hz.
  apply list_elem_of_In. apply in_or_app. now right.
Qed.

(** The result is made of the keywords with the highest counts: a
    keyword of the tiers that is found in some record and is not part of
    the result leaves a result of exactly 10 entries, each with a count
    at least as large as its own. *)
Theorem trending_topics_are_the_top (articles : list Article) (k : string) :
  In k all_keywords -> 0 < occurrences k articles ->
  In k (map fst (get_trending_topics articles)) \/
  (length (get_trending_topics articles) = 10%nat /\
   forall k' c', In (k', c') (get_trending_topics articles) ->
                 occurrences k articles <= c').
Proof.
  intros Hk Hpos.
  destruct (trending_sublist articles) as (sorted & Hperm & -> & Hs).
  assert (Hin : In (k, occurrences k articles) sorted).
  { eapply Permutation_in; [symmetry; exact Hperm|].
    now apply topic_counts_has. }
  rewrite <- (firstn_skipn 10 sorted) in Hin, Hs.
  apply in_app_or in Hin. destruct Hin as [Hin|Hin].
  - left. change k with (fst (k, occurrences k articles)). now apply in_map.
  - right. split.
    + rewrite length_firstn.
      assert (length (skipn 10 sorted) <> 0%nat)
        by (destruct (skipn 10 sorted); [destruct Hin|discriminate]).
      rewrite length_skipn in H. lia.
    + intros k' c' Hin'.
      apply (StronglySorted_app_inv _ _ _ Hs (k', c')
               (k, occurrences k articles) Hin' Hin).
Qed.

Lemma trending_topics_are_the_top_witness :
  In "gpt" (map fst (get_trending_topics
                       [raw_article "OpenAI ships a new assistant" "" "2026-11-01";
                        raw_article "A GPT for spreadsheets" "" "2026-11-02"])) \/
  (length (get_trending_topics
             [raw_article "OpenAI ships a new assistant" "" "2026-11-01";
              raw_article "A GPT for spreadsheets" "" "2026-11-02"]) = 10%nat /\
   forall k' c',
     In (k', c') (get_trending_topics
                    [raw_article "OpenAI ships a new assistant" "" "2026-11-01";
                     raw_article "A GPT for spreadsheets" "" "2026-11-02"]) ->
     occurrences "gpt"
       [raw_article "OpenAI ships a new assistant" "" "2026-11-01";
        raw_article "A GPT for spreadsheets" "" "2026-11-02"] <= c').
Proof.
  apply (trending_topics_are_the_top
           [raw_article "OpenAI ships a new assistant" "" "2026-11-01";
            raw_article "A GPT for spreadsheets" "" "2026-11-02"] "gpt").
  - unfold all_keywords, ai_keywords_values, high_priority. simpl. tauto.
  - reflexivity.
Defined.

(** ** The processing run of [main.py] *)

Lemma sublist_Forall {A} (P : A -> Prop) (l1 l2 : list A) :
  l1 `sublist_of` l2 -> Forall P l2 -> Forall P l1.
Proof.
  intros Hs H. rewrite Forall_forall in H |- *.
  intros x Hx. apply H. eapply elem_of_sublist; eassumption.
Qed.

Lemma sublist_StronglySorted {A} (R : A -> A -> Prop) (l1 l2 : list A) :
  l1 `sublist_of` l2 -> StronglySorted R l2 -> StronglySorted R l1.
Proof.
  induction 1 as [|x l1 l2 Hs IH|x l1 l2 Hs IH]; intros H.
  - constructor.
  - apply StronglySorted_inv in H. destruct H as [H Hx].
    constructor; [now apply IH|]. eapply sublist_Forall; eassumption.
  - apply StronglySorted_inv in H. now apply IH.
Qed.

Section GatheringFacts.
Variable md5_hex : string -> string.
Variable now_iso : nat -> string.
Variable strptime : string -> string -> option Z.

Lemma intelligence_processing_selection seen now all_articles articles trending :
  intelligence_processing md5_hex now_iso strptime seen now all_articles
  = Some (articles, trending) ->
  articles `sublist_of` (process_articles md5_hex now_iso seen all_articles).1 /\
  StronglySorted later_not_near articles /\
  trending = get_trending_topics articles.
Proof.
  unfold intelligence_processing.
  destruct all_articles as [|a r].
  - intros [= <- <-]. split; [apply sublist_nil_l|].
    split; [constructor|reflexivity].
  - destruct (filter_by_date strptime now _ 7) as [filtered|] eqn:E;
      [|discriminate].
    intros [= <- <-].
    apply filter_by_date_selects_in_order in E. destruct E as [Hsub _].
    split; [|split; [|reflexivity]].
    + etransitivity; [|exact Hsub].
      apply deduplicate_selects_in_order.
    + apply deduplicate_output_separated.
Qed.

(** When the run yields records, each of them went through the main
    pass (it has a score of at least 2, a priority, a summary and a
    processing date), they are still in descending order of (score,
    date), their hashes are pairwise different, none is a near duplicate
    of one before it, there are no more of them than collected records,
    and the trending topics are those of these records. *)
Theorem intelligence_processing_result
    (seen : gset string) (now : Z)
    (all_articles articles : list Article) (trending : list (string * Z)) :
  intelligence_processing md5_hex now_iso strptime seen now all_articles
  = Some (articles, trending) ->
  Forall enriched articles /\
  StronglySorted tuple_desc articles /\
  NoDup (map stored_hash articles) /\
  StronglySorted later_not_near articles /\
  (length articles <= length all_articles)%nat /\
  trending = get_trending_topics articles.
Proof.
  intros H.
  destruct (intelligence_processing_selection _ _ _ _ _ H)
    as (Hsub & Hnear & Htr).
  split; [eapply sublist_Forall; [exact Hsub|apply process_articles_enriched]|].
  split.
  { eapply sublist_StronglySorted; [exact Hsub|].
    unfold process_articles. cbn [fst].
    eapply StronglySorted_weaken;
      [|apply (sort_desc_sorted sort_key key_ltb key_ltb_asym key_ltb_negtrans
                 (fun _ _ => True)); apply StronglySorted_trivial].
    intros x y [Hk _]. now apply key_ltb_false. }
  split.
  { destruct (process_articles_trace md5_hex now_iso seen all_articles)
      as (added & Hperm & _ & Hnd & _).
    assert (Hs1 : map stored_hash articles
                  `sublist_of`
                  map stored_hash
                      (process_articles md5_hex now_iso seen all_articles).1)
      by apply sublist_map, Hsub.
    assert (Hn1 : NoDup (map stored_hash
                           (process_articles md5_hex now_iso seen all_articles).1))
      by now rewrite Hperm.
    eapply sublist_NoDup; eassumption. }
  split; [assumption|]. split; [|assumption].
  destruct (process_articles_trace md5_hex now_iso seen all_articles)
    as (added & Hperm & _ & _ & Hlen & _).
  apply sublist_length in Hsub. rewrite (Permutation_length Hperm) in Hsub.
  lia.
Qed.

(** The run fails only through the cutoff of the date filter, which
    needs the clock to be at least 7 days after the first instant a
    datetime can hold; with no collected record it does not even look at
    the clock and yields no record and no trending topic. *)
Theorem intelligence_processing_defined
    (seen : gset string) (now : Z) (all_articles : list Article) :
  intelligence_processing md5_hex now_iso strptime seen now [] = Some ([], []) /\
  (7 * us_per_day <= now < datetime_end + 7 * us_per_day ->
   exists articles trending,
     intelligence_processing md5_hex now_iso strptime seen now all_articles
     = Some (articles, trending)) /\
  (all_articles <> [] -> now < 7 * us_per_day ->
   intelligence_processing md5_hex now_iso strptime seen now all_articles = None).
Proof.
  split; [reflexivity|]. unfold intelligence_processing, filter_by_date.
  split.
  - intros Hnow. destruct all_articles as [|a r]; [eauto|].
    assert (Hc : cutoff_date now 7 = Some (now - 7 * us_per_day)).
    { unfold cutoff_date. change (Z.abs 7 <=? max_timedelta_days) with true.
      cbv iota zeta.
      destruct (Z.leb_spec 0 (now - 7 * us_per_day)); [|lia].
      destruct (Z.ltb_spec (now - 7 * us_per_day) datetime_end); [|lia].
      reflexivity. }
    rewrite Hc. eauto.
  - intros Hne Hnow. destruct all_articles as [|a r]; [congruence|].
    assert (Hc : cutoff_date now 7 = None).
    { unfold cutoff_date. change (Z.abs 7 <=? max_timedelta_days) with true.
      cbv iota zeta.
      destruct (Z.leb_spec 0 (now - 7 * us_per_day)); [lia|reflexivity]. }
    now rewrite Hc.
Qed.

End GatheringFacts.

Lemma intelligence_processing_result_witness :
  map title
    [enrich 9 "2026-11-10T08:00:00"
       (set_hash
          "Breakthrough: New GPT-5 Model UnveiledOpenAI announces major funding round"
          (raw_article "Breakthrough: New GPT-5 Model Unveiled"
                       "OpenAI announces major funding round" "2026-11-09"))]
  = [Some "Breakthrough: New GPT-5 Model Unveiled"] /\
  [("gpt", 1); ("openai", 1); ("funding", 1)]
  = get_trending_topics
      [enrich 9 "2026-11-10T08:00:00"
         (set_hash
            "Breakthrough: New GPT-5 Model UnveiledOpenAI announces major funding round"
            (raw_article "Breakthrough: New GPT-5 Model Unveiled"
                         "OpenAI announces major funding round" "2026-11-09"))].
Proof.
  split; [reflexivity|].
  apply (intelligence_processing_result text_digest
           (fun _ => "2026-11-10T08:00:00") strptime_ymd ∅ 63929865600000000
           [raw_article "Breakthrough: New GPT-5 Model Unveiled"
                        "OpenAI announces major funding round" "2026-11-09";
            raw_article "Weather forecast for Tuesday"
                        "sunny skies expected" "2026-11-09"]).
  vm_compute. reflexivity.
Defined.

Lemma intelligence_processing_defined_witness :
  exists articles trending,
    intelligence_processing text_digest (fun _ => "2026-11-10T08:00:00")
      strptime_ymd ∅ 63929865600000000
      [raw_article "Weather forecast for Tuesday" "sunny skies expected" ""]
    = Some (articles, trending).
Proof.
  apply (proj1 (proj2 (intelligence_processing_defined text_digest
                         (fun _ => "2026-11-10T08:00:00") strptime_ymd ∅
                         63929865600000000
                         [raw_article "Weather forecast for Tuesday"
                                      "sunny skies expected" ""]))).
  vm_compute. split; [discriminate|reflexivity].
Defined.

(** ** The summary statistics of [main.py] *)

Lemma priority_counts_count k articles : forall counts,
  count_of k (fold_left (fun counts a => increment (priority_key a) counts)
                        articles counts)
  = count_of k counts
    + Z.of_nat (length (List.filter (fun a => String.eqb k (priority_key a))
                                    articles)).
Proof.
  induction articles as [|a r IH]; intros counts.
  - cbn. lia.
  - rewrite fold_left_cons, IH, increment_count. cbn [List.filter].
    destruct (String.eqb k (priority_key a)); cbn [length]; lia.
Qed.

Lemma priority_key_cases a :
  priority a <> None ->
  (if String.eqb "critical" (priority_key a) then 1 else 0)
  + (if String.eqb "high" (priority_key a) then 1 else 0)
  + (if String.eqb "medium" (priority_key a) then 1 else 0)
  + (if String.eqb "low" (priority_key a) then 1 else 0) = 1.
Proof.
  unfold priority_key. destruct (priority a) as [[]|]; [reflexivity..|congruence].
Qed.

Lemma filter_lengths_sum articles :
  Forall (fun a => priority a <> None) articles ->
  Z.of_nat (length (List.filter (fun a => String.eqb "critical" (priority_key a)) articles))
  + Z.of_nat (length (List.filter (fun a => String.eqb "high" (priority_key a)) articles))
  + Z.of_nat (length (List.filter (fun a => String.eqb "medium" (priority_key a)) articles))
  + Z.of_nat (length (List.filter (fun a => String.eqb "low" (priority_key a)) articles))
  = Z.of_nat (length articles).
Proof.
  induction 1 as [|a r Ha Hr IH]; [reflexivity|].
  cbn [List.filter]. pose proof (priority_key_cases a Ha) as Hk.
  destruct (String.eqb "critical" (priority_key a)),
           (String.eqb "high" (priority_key a)),
           (String.eqb "medium" (priority_key a)),
           (String.eqb "low" (priority_key a));
    cbn [length]; lia.
Qed.

(** Each count of the statistics is the number of processed records of
    that priority.  For records that have been through the main pass the
    four counts that are printed (critical, high, medium, low) add up to
    the number of records, and nothing is counted as unknown. *)
Theorem priority_counts_add_up (processed : list Article) :
  (forall k, count_of k (priority_counts processed)
             = Z.of_nat (length (List.filter
                                   (fun a => String.eqb k (priority_key a))
                                   processed))) /\
  (Forall enriched processed ->
   count_of "critical" (priority_counts processed)
   + count_of "high" (priority_counts processed)
   + count_of "medium" (priority_counts processed)
   + count_of "low" (priority_counts processed)
   = Z.of_nat (length processed) /\
   count_of "unknown" (priority_counts processed) = 0).
Proof.
  assert (Hcount : forall k, count_of k (priority_counts processed)
             = Z.of_nat (length (List.filter
                                   (fun a => String.eqb k (priority_key a))
                                   processed))).
  { intros k. unfold priority_counts. rewrite priority_counts_count.
    cbn [count_of]. lia. }
  split; [exact Hcount|]. intros Henr.
  assert (Hp : Forall (fun a => priority a <> None) processed).
  { eapply List.Forall_impl; [|exact Henr].
    intros a (_ & _ & Hp & _). congruence. }
  split; [rewrite !Hcount; now apply filter_lengths_sum|].
  rewrite Hcount. clear Hcount Henr.
  induction Hp as [|a r Ha Hr IH]; [reflexivity|].
  cbn [List.filter]. unfold priority_key at 1.
  destruct (priority a) as [[]|]; [exact IH..|congruence].
Qed.

Lemma priority_counts_add_up_witness :
  count_of "critical"
    (priority_counts
       [enrich 9 "2026-11-10T08:00:00"
          (raw_article "Breakthrough: New GPT-5 Model Unveiled"
                       "OpenAI announces major funding round" "2026-11-09")])
  + count_of "high"
    (priority_counts
       [enrich 9 "2026-11-10T08:00:00"
          (raw_article "Breakthrough: New GPT-5 Model Unveiled"
                       "OpenAI announces major funding round" "2026-11-09")])
  + count_of "medium"
    (priority_counts
       [enrich 9 "2026-11-10T08:00:00"
          (raw_article "Breakthrough: New GPT-5 Model Unveiled"
                       "OpenAI announces major funding round" "2026-11-09")])
  + count_of "low"
    (priority_counts
       [enrich 9 "2026-11-10T08:00:00"
          (raw_article "Breakthrough: New GPT-5 Model Unveiled"
                       "OpenAI announces major funding round" "2026-11-09")])
  = 1.
Proof.
  apply (proj2 (priority_counts_add_up
           [enrich 9 "2026-11-10T08:00:00"
              (raw_article "Breakthrough: New GPT-5 Model Unveiled"
                           "OpenAI announces major funding round" "2026-11-09")])).
  constructor; [|constructor].
  unfold enriched. vm_compute.
  repeat split; try reflexivity; try discriminate. now eexists.
Defined.

(** * Figures of the reports *)

Lemma add_key_In k s keys : In k (add_key s keys) <-> In k keys \/ k = s.
Proof.
  unfold add_key. destruct (mem s keys) eqn:E.
  - apply mem_In in E. split; [tauto|]. intros [H| ->]; assumption.
  - rewrite in_app_iff. cbn [In]. split; [intros [H|[<-|[]]]|intros [H| ->]];
      tauto.
Qed.

Lemma group_append_keys s a sd :
  map fst (group_append s a sd) = add_key s (map fst sd).
Proof.
  unfold add_key.
  induction sd as [|[s' l] r IH]; cbn [group_append map fst mem existsb];
    [reflexivity|].
  destruct (String.eqb s s') eqn:E; cbn [orb map fst]; [reflexivity|].
  rewrite IH. fold (mem s (map fst r)).
  now destruct (mem s (map fst r)).
Qed.

Lemma group_append_group s' s a sd :
  group_of s' (group_append s a sd)
  = group_of s' sd ++ (if String.eqb s' s then [a] else []).
Proof.
  induction sd as [|[s0 l] r IH]; cbn [group_append group_of].
  - destruct (String.eqb s' s); reflexivity.
  - destruct (String.eqb s s0) eqn:E; cbn [group_of].
    + apply String.eqb_eq in E. subst s0.
      destruct (String.eqb s' s); [reflexivity|].
      now rewrite app_nil_r.
    + destruct (String.eqb s' s0) eqn:E'; [|exact IH].
      apply String.eqb_eq in E'. subst s0.
      rewrite String.eqb_sym, E. now rewrite app_nil_r.
Qed.

Lemma grouping_keys articles : forall sd,
  NoDup (map fst sd) ->
  NoDup (map fst (fold_left (fun sd a => group_append (source_key a) a sd)
                            articles sd)) /\
  forall s, In s (map fst (fold_left (fun sd a => group_append (source_key a) a sd)
                                     articles sd)) <->
            In s (map fst sd) \/ exists a, In a articles /\ source_key a = s.
Proof.
  induction articles as [|a r IH]; intros sd Hnd.
  - cbn [fold_left]. split; [assumption|].
    intros s. split; [tauto|]. intros [H|(a & [] & _)]. exact H.
  - rewrite fold_left_cons.
    assert (Hnd' : NoDup (map fst (group_append (source_key a) a sd)))
      by (rewrite group_append_keys; now apply add_key_NoDup).
    destruct (IH _ Hnd') as [H1 H2]. split; [assumption|].
    intros s. rewrite H2, group_append_keys, add_key_In. split.
    + intros [[H| ->]|(x & Hx & Hs)]; [now left|right..].
      * exists a. split; [now left|reflexivity].
      * exists x. split; [now right|assumption].
    + intros [H|(x & [->|Hx] & Hs)]; [left; now left|left; right; now subst|].
      right. eauto.
Qed.

Lemma grouping_group s articles : forall sd,
  group_of s (fold_left (fun sd a => group_append (source_key a) a sd)
                        articles sd)
  = group_of s sd
    ++ List.filter (fun a => String.eqb s (source_key a)) articles.
Proof.
  induction articles as [|a r IH]; intros sd.
  - cbn [fold_left List.filter]. now rewrite app_nil_r.
  - rewrite fold_left_cons, IH, group_append_group. cbn [List.filter].
    destruct (String.eqb s (source_key a)); rewrite <- app_assoc; reflexivity.
Qed.

Lemma group_of_In s l (sd : list (string * list Article)) :
  NoDup (map fst sd) -> In (s, l) sd -> group_of s sd = l.
Proof.
  induction sd as [|[s' l'] r IH]; cbn [In group_of map fst]; [tauto|].
  intros Hnd [E|Hin].
  - inversion E; subst. now rewrite String.eqb_refl.
  - apply NoDup_cons in Hnd. destruct Hnd as [Hs Hnd].
    destruct (String.eqb s s') eqn:E; [|now apply IH].
    apply String.eqb_eq in E. subst s'.
    exfalso. apply Hs. apply list_elem_of_In.
    change s with (fst (s, l)). now apply in_map.
Qed.

(** The groups of [sources_data]: one per source, with the records of
    that source in their order, never empty. *)
Lemma sources_data_groups articles :
  NoDup (map fst (sources_data articles)) /\
  (forall a, In a articles -> In (source_key a) (map fst (sources_data articles))) /\
  forall s l, In (s, l) (sources_data articles) ->
    l = List.filter (fun a => String.eqb s (source_key a)) articles /\
    l <> [].
Proof.
  unfold sources_data.
  destruct (grouping_keys articles [] ltac:(constructor)) as [Hnd Hkeys].
  split; [assumption|]. split.
  - intros a Ha. apply Hkeys. right. eauto.
  - intros s l Hin.
    pose proof (group_of_In s l _ Hnd Hin) as Hg.
    rewrite grouping_group in Hg. cbn [group_of app] in Hg.
    split; [now symmetry|].
    assert (Hs : In s (map fst (fold_left
                (fun sd a => group_append (source_key a) a sd) articles [])))
      by (change s with (fst (s, l)); now apply in_map).
    apply Hkeys in Hs. destruct Hs as [[]|(a & Ha & Hs)].
    intros ->.
    assert (Hina : In a (List.filter (fun a => String.eqb s (source_key a))
                                     articles)).
    { apply List.filter_In. split; [assumption|].
      rewrite Hs. apply String.eqb_refl. }
    rewrite Hg in Hina. destruct Hina.
Qed.

(** The executive report counts every record once in the group of its
    source: the groups are those of pairwise different sources, none is
    empty, together they hold as many records as there are, and there
    are no more sources than records nor more high-priority alerts than
    records. *)
Theorem report_groups_partition (articles : list Article) :
  NoDup (map fst (sources_data articles)) /\
  Forall (fun g => g.2 <> [] /\
                   g.2 = List.filter (fun a => String.eqb g.1 (source_key a))
                                     articles)
         (sources_data articles) /\
  length (concat (map snd (sources_data articles))) = total_articles articles /\
  (total_sources articles <= total_articles articles)%nat /\
  (high_priority_count articles <= total_articles articles)%nat.
Proof.
  destruct (sources_data_groups articles) as (Hnd & Hcover & Hgroups).
  assert (Hall : Forall (fun g => g.2 <> [] /\
                   g.2 = List.filter (fun a => String.eqb g.1 (source_key a))
                                     articles)
                        (sources_data articles)).
  { apply Forall_forall. intros [s l] Hin. apply list_elem_of_In in Hin.
    destruct (Hgroups s l Hin). now split. }
  assert (Hlen : length (concat (map snd (sources_data articles)))
                 = length articles).
  { clear Hall Hcover Hgroups Hnd. unfold sources_data.
    assert (Hgen : forall l sd,
               length (concat (map snd (fold_left
                 (fun sd a => group_append (source_key a) a sd) l sd)))
               = (length (concat (map snd sd)) + length l)%nat).
    { induction l as [|a r IH]; intros sd; cbn [fold_left length]; [lia|].
      rewrite IH. clear IH.
      assert (Hone : forall s sd,
                 length (concat (map snd (group_append s a sd)))
                 = S (length (concat (map snd sd)))).
      { intros s sd'. induction sd' as [|[s' l'] r' IH'];
          cbn [group_append map snd concat]; [reflexivity|].
        destruct (String.eqb s s'); cbn [map snd concat];
          rewrite ?length_app, ?IH'; cbn [length]; lia. }
      rewrite Hone. lia. }
    now rewrite Hgen. }
  split; [assumption|]. split; [assumption|]. split; [assumption|].
  split.
  - unfold total_sources, total_articles. rewrite <- Hlen.
    clear - Hall. induction Hall as [|[s l] r [Hne _] Hr IH]; [cbn; lia|].
    cbn [map snd concat length]. rewrite length_app.
    cbn [snd] in Hne. destruct l; [congruence|]. cbn [length] in *. lia.
  - unfold high_priority_count, critical_articles, high_priority_articles,
      total_articles.
    clear. induction articles as [|a r IH]; [cbn; lia|].
    cbn [List.filter]. unfold is_critical at 1, is_high at 1.
    destruct (priority a) as [[]|]; cbn [length]; lia.
Qed.

Lemma max_by_score_from_spec l : forall best,
  In (max_by_score_from best l) (best :: l) /\
  forall x, In x (best :: l) -> score_of x <= score_of (max_by_score_from best l).
Proof.
  induction l as [|y r IH]; intros best; cbn [max_by_score_from].
  - split; [now left|]. intros x [<-|[]]. lia.
  - destruct (Z.gtb_spec (score_of y) (score_of best)) as [Hgt|Hle].
    + destruct (IH y) as [Hin Hmax]. split.
      * right. exact Hin.
      * intros x [<-|Hx]; [|now apply Hmax].
        specialize (Hmax y ltac:(now left)). lia.
    + destruct (IH best) as [Hin Hmax]. split.
      * destruct Hin as [<-|Hin]; [now left|right; now right].
      * intros x [<-|[<-|Hx]].
        -- apply Hmax. now left.
        -- specialize (Hmax best ltac:(now left)). lia.
        -- apply Hmax. now right.
Qed.

Lemma NoDup_StronglySorted_neq {A} (l : list A) :
  NoDup l -> StronglySorted (fun x y => x <> y) l.
Proof.
  induction 1 as [|x l Hx Hnd IH]; constructor; [assumption|].
  apply Forall_forall. intros y Hy ->. contradiction.
Qed.

Lemma StronglySorted_and {A} (R Q : A -> A -> Prop) l :
  StronglySorted R l -> StronglySorted Q l ->
  StronglySorted (fun x y => R x y /\ Q x y) l.
Proof.
  induction 1 as [|x l Hs IH Hx]; intros HQ; [constructor|].
  apply StronglySorted_inv in HQ. destruct HQ as [HQ HQx].
  constructor; [now apply IH|].
  rewrite Forall_forall in Hx, HQx. apply Forall_forall.
  intros y Hy. split; [now apply Hx|now apply HQx].
Qed.

Lemma flipped_ltb_asym a b : String.ltb b a = true -> String.ltb a b = false.
Proof. apply string_ltb_asym. Qed.

Lemma flipped_ltb_negtrans a b c :
  String.ltb b a = false -> String.ltb c b = false -> String.ltb c a = false.
Proof. intros H1 H2. now apply (string_ltb_negtrans c b a). Qed.

Lemma sorted_sources_ascending sd :
  NoDup (map fst sd) ->
  StronglySorted (fun p q => String.compare p.1 q.1 = Lt) (sorted_sources sd).
Proof.
  intros Hnd. unfold sorted_sources.
  set (ltb' := fun k1 k2 : string => String.ltb k2 k1).
  pose proof (sort_desc_sorted fst ltb' flipped_ltb_asym flipped_ltb_negtrans
                (fun _ _ => True) sd (StronglySorted_trivial sd)) as Hs.
  assert (Hnd' : NoDup (map fst (sort_desc fst ltb' sd)))
    by now rewrite (sort_desc_perm fst ltb' sd).
  apply NoDup_StronglySorted_neq in Hnd'.
  apply (StronglySorted_map fst (fun x y => x <> y)) in Hnd'.
  eapply StronglySorted_weaken; [|exact (StronglySorted_and _ _ _ Hs Hnd')].
  intros p q [[Hle _] Hne]. unfold ltb', String.ltb in Hle. cbn beta in Hne.
  rewrite String.compare_antisym.
  destruct (String.compare q.1 p.1) eqn:E; [|discriminate|reflexivity].
  apply String.compare_eq_iff in E. congruence.
Qed.

Lemma flat_map_sorted_keys {A B} (R : string -> string -> Prop)
    (F : string * A -> list (string * B)) (l : list (string * A)) :
  (forall p q, In q (F p) -> q.1 = p.1) ->
  (forall p, (length (F p) <= 1)%nat) ->
  StronglySorted (fun p q => R p.1 q.1) l ->
  StronglySorted (fun p q => R p.1 q.1) (flat_map F l).
Proof.
  intros Hkey Hone. induction 1 as [|p r Hs IH Hp]; [constructor|].
  cbn [flat_map]. apply StronglySorted_app; [|assumption|].
  - specialize (Hone p). destruct (F p) as [|x [|y t]];
      [constructor| |cbn [length] in Hone; lia].
    constructor; constructor.
  - intros x y Hx Hy. apply in_flat_map in Hy. destruct Hy as (q & Hq & Hy).
    rewrite (Hkey p x Hx), (Hkey q y Hy).
    rewrite Forall_forall in Hp. apply Hp. now apply list_elem_of_In.
Qed.

(** The competitor analysis has one section per source, in ascending
    order of the source names; every record's source has its section;
    and the record shown in a section is a record of that source whose
    score no other record of the source exceeds. *)
Theorem competitor_analysis_sections (articles : list Article) :
  StronglySorted (fun p q => String.compare p.1 q.1 = Lt)
                 (competitor_analysis articles) /\
  (forall a, In a articles ->
     exists shown, In (source_key a, shown) (competitor_analysis articles)) /\
  forall s shown, In (s, shown) (competitor_analysis articles) ->
    In shown articles /\ source_key shown = s /\
    forall a, In a articles -> source_key a = s ->
              score_of a <= score_of shown.
Proof.
  destruct (sources_data_groups articles) as (Hnd & Hcover & Hgroups).
  unfold competitor_analysis.
  set (F := fun '(s, source_articles) =>
              match latest_article source_articles with
              | Some latest => [(s, latest)]
              | None => []
              end).
  assert (Hperm : Permutation (sorted_sources (sources_data articles))
                              (sources_data articles))
    by apply sort_desc_perm.
  split; [|split].
  - apply (flat_map_sorted_keys (fun k1 k2 => String.compare k1 k2 = Lt) F).
    + intros [s l] q. unfold F.
      destruct (latest_article l); [intros [<-|[]]; reflexivity|intros []].
    + intros [s l]. unfold F. destruct (latest_article l); cbn [length]; lia.
    + now apply sorted_sources_ascending.
  - intros a Ha. specialize (Hcover a Ha).
    apply in_map_iff in Hcover. destruct Hcover as ([s l] & Hs & Hin).
    cbn [fst] in Hs. subst s.
    destruct (Hgroups _ _ Hin) as [_ Hne].
    destruct l as [|x r]; [congruence|].
    exists (max_by_score_from x r). apply in_flat_map.
    exists (source_key a, x :: r). split.
    + eapply Permutation_in; [symmetry; exact Hperm|assumption].
    + unfold F. cbn [latest_article]. now left.
  - intros s shown Hin. apply in_flat_map in Hin.
    destruct Hin as ([s' l] & Hsl & Hin).
    assert (Hsd : In (s', l) (sources_data articles))
      by (eapply Permutation_in; eassumption).
    destruct (Hgroups _ _ Hsd) as [Hl _].
    unfold F in Hin. destruct l as [|x r]; [destruct Hin|].
    cbn [latest_article] in Hin. destruct Hin as [E|[]].
    inversion E; subst s' shown. clear E.
    destruct (max_by_score_from_spec r x) as [Hmem Hmax].
    rewrite Hl in Hmem. apply List.filter_In in Hmem.
    destruct Hmem as [Hmem Hkey]. apply String.eqb_eq in Hkey.
    split; [assumption|]. split; [now symmetry|].
    intros a Ha Hs. apply Hmax. rewrite Hl. apply List.filter_In.
    split; [assumption|]. rewrite Hs. apply String.eqb_refl.
Qed.

Lemma competitor_analysis_sections_witness :
  exists shown,
    In (source_key (mkArticle (Some "t") (Some "c") None (Some "openai.com")
                              None None (Some 5) None None (Some medium)),
        shown)
       (competitor_analysis
          [mkArticle (Some "t") (Some "c") None (Some "openai.com")
                     None None (Some 5) None None (Some medium)]).
Proof.
  apply (proj1 (proj2 (competitor_analysis_sections
           [mkArticle (Some "t") (Some "c") None (Some "openai.com")
                      None None (Some 5) None None (Some medium)]))).
  left. reflexivity.
Defined.

Lemma size_list_to_set_NoDup (l : list string) :
  NoDup l -> size (list_to_set l : gset string) = length l.
Proof. apply size_list_to_set. Qed.

(** When every record has a source, as the records of the scrapers do,
    the number of sources of the executive report and the number of
    sources monitored of the JSON export and the dashboard are the same
    number, which is 0 only when there is no record. *)
Theorem source_counts_agree (articles : list Article) :
  Forall (fun a => source a <> None) articles ->
  total_sources articles = sources_monitored articles /\
  (total_sources articles = 0%nat <-> articles = []).
Proof.
  intros Hsrc.
  destruct (sources_data_groups articles) as (Hnd & Hcover & Hgroups).
  unfold total_sources, sources_monitored.
  rewrite <- (length_map fst (sources_data articles)).
  rewrite <- (size_list_to_set_NoDup _ Hnd).
  split.
  - f_equal. apply set_eq. intros s.
    rewrite !elem_of_list_to_set, !list_elem_of_In. split.
    + intros Hs. apply in_map_iff in Hs. destruct Hs as ([s' l] & <- & Hin).
      cbn [fst]. destruct (Hgroups _ _ Hin) as [Hl Hne].
      destruct l as [|x r]; [congruence|].
      assert (Hx : In x (x :: r)) by now left.
      rewrite Hl in Hx. apply List.filter_In in Hx. destruct Hx as [Hx Hk].
      apply String.eqb_eq in Hk. apply in_map_iff. exists x.
      split; [|assumption].
      rewrite Forall_forall in Hsrc.
      specialize (Hsrc x (proj2 (list_elem_of_In _ _) Hx)).
      rewrite Hk. unfold source_key, get.
      destruct (source x); [reflexivity|congruence].
    + intros Hs. apply in_map_iff in Hs. destruct Hs as (a & <- & Ha).
      rewrite Forall_forall in Hsrc.
      specialize (Hsrc a (proj2 (list_elem_of_In _ _) Ha)).
      replace (get (source a)) with (source_key a)
        by (unfold source_key, get; destruct (source a); [reflexivity|congruence]).
      now apply Hcover.
  - rewrite (size_list_to_set_NoDup _ Hnd), length_map. split.
    + intros H0. destruct articles as [|a r]; [reflexivity|].
      specialize (Hcover a ltac:(now left)).
      destruct (sources_data (a :: r)); [destruct Hcover|discriminate].
    + intros ->. reflexivity.
Qed.

Lemma source_counts_agree_witness :
  total_sources
    [mkArticle (Some "t") None None (Some "openai.com") None None None None None None;
     mkArticle (Some "u") None None (Some "RSS") None None None None None None;
     mkArticle (Some "v") None None (Some "openai.com") None None None None None None]
  = sources_monitored
    [mkArticle (Some "t") None None (Some "openai.com") None None None None None None;
     mkArticle (Some "u") None None (Some "RSS") None None None None None None;
     mkArticle (Some "v") None None (Some "openai.com") None None None None None None].
Proof.
  apply (source_counts_agree
           [mkArticle (Some "t") None None (Some "openai.com") None None None None None None;
            mkArticle (Some "u") None None (Some "RSS") None None None None None None;
            mkArticle (Some "v") None None (Some "openai.com") None None None None None None]).
  repeat constructor; discriminate.
Defined.

(** * Pure parts of the scrapers *)

(** ** [_clean_content] *)

Lemma append_empty_r (a : string) : a +:+ EmptyString = a.
Proof.
  induction a as [|x a IH]; rewrite ?append_nil, ?append_cons; congruence.
Qed.

Lemma runs_aux_run (p : ascii -> bool) w : forall cur rest,
  Forall (fun c => p c = true) (String.list_ascii_of_string w) ->
  Text.runs_aux p cur (w +:+ rest)
  = Text.runs_aux p (rev (String.list_ascii_of_string w) ++ cur) rest.
Proof.
  induction w as [|c w IH]; intros cur rest Hw; [reflexivity|].
  rewrite append_cons. cbn [Text.runs_aux String.list_ascii_of_string rev].
  apply Forall_cons in Hw. destruct Hw as [Hc Hw].
  rewrite Hc, IH by assumption. now rewrite <- app_assoc.
Qed.

Lemma to_list_nonempty w :
  w <> EmptyString -> rev (String.list_ascii_of_string w) <> [].
Proof.
  destruct w as [|c w]; [congruence|]. intros _.
  cbn [String.list_ascii_of_string rev]. intros H.
  apply app_eq_nil in H. destruct H; discriminate.
Qed.

Lemma of_list_rev_rev w :
  String.string_of_list_ascii (rev (rev (String.list_ascii_of_string w))) = w.
Proof.
  rewrite rev_involutive. apply String.string_of_list_ascii_of_string.
Qed.

Lemma is_word_not_space w :
  is_word w ->
  Forall (fun c => negb (Text.is_space c) = true)
         (String.list_ascii_of_string w).
Proof.
  intros [_ H]. eapply List.Forall_impl; [|exact H].
  intros c Hc. now rewrite Hc.
Qed.

(** Splitting what [join] has put together gives the words back. *)
Lemma split_join words :
  Forall is_word words -> split_ws (join_space words) = words.
Proof.
  unfold split_ws, Text.runs.
  induction 1 as [|w r Hw Hr IH]; [reflexivity|].
  pose proof (to_list_nonempty w (proj1 Hw)) as Hne.
  cbn [join_space]. destruct r as [|w2 r'].
  - rewrite <- (append_empty_r w) at 1.
    rewrite runs_aux_run by now apply is_word_not_space.
    rewrite app_nil_r. cbn [Text.runs_aux].
    destruct (rev (String.list_ascii_of_string w)) as [|x l] eqn:E;
      [congruence|].
    rewrite <- E. now rewrite of_list_rev_rev.
  - rewrite runs_aux_run by now apply is_word_not_space.
    rewrite app_nil_r. rewrite append_cons, append_nil.
    cbn [Text.runs_aux]. change (Text.is_space " ") with true. cbn [negb].
    destruct (rev (String.list_ascii_of_string w)) as [|x l] eqn:E;
      [congruence|].
    rewrite <- E, of_list_rev_rev. now rewrite IH.
Qed.

Lemma runs_aux_words s : forall cur,
  Forall (fun c => Text.is_space c = false) cur ->
  Forall is_word (Text.runs_aux (fun c => negb (Text.is_space c)) cur s).
Proof.
  assert (Hemit : forall x cur,
            Forall (fun c => Text.is_space c = false) (x :: cur) ->
            is_word (String.string_of_list_ascii (rev (x :: cur)))).
  { intros x cur Hc. split.
    - intros H. apply (f_equal String.list_ascii_of_string) in H.
      rewrite String.list_ascii_of_string_of_list_ascii in H.
      cbn [rev String.list_ascii_of_string] in H.
      apply app_eq_nil in H. destruct H; discriminate.
    - rewrite String.list_ascii_of_string_of_list_ascii.
      now apply Forall_rev. }
  induction s as [|c s IH]; intros cur Hcur; cbn [Text.runs_aux].
  - destruct cur as [|x cur]; [constructor|].
    constructor; [now apply Hemit|constructor].
  - destruct (Text.is_space c) eqn:E; cbn [negb].
    + destruct cur as [|x cur]; [apply IH; constructor|].
      constructor; [now apply Hemit|apply IH; constructor].
    + apply IH. now constructor.
Qed.

Lemma split_ws_words s : Forall is_word (split_ws s).
Proof. apply runs_aux_words. constructor. Qed.

Lemma join_snoc_append l w x :
  join_space (l ++ [w]) +:+ x = join_space (l ++ [w +:+ x]).
Proof.
  induction l as [|y l IH]; [reflexivity|].
  cbn [app join_space].
  destruct (l ++ [w]) as [|z t] eqn:E1;
    [apply app_eq_nil in E1; destruct E1; discriminate|].
  destruct (l ++ [w +:+ x]) as [|z' t'] eqn:E2;
    [apply app_eq_nil in E2; destruct E2; discriminate|].
  rewrite !append_assoc. now rewrite IH.
Qed.

Lemma is_word_append w x :
  is_word w ->
  Forall (fun c => Text.is_space c = false) (String.list_ascii_of_string x) ->
  is_word (w +:+ x).
Proof.
  intros [Hne Hw] Hx. split.
  - destruct w; [congruence|]. rewrite append_cons. discriminate.
  - rewrite to_list_append. apply Forall_app. now split.
Qed.

(** What [_clean_content] returns is made of at most 500 words joined by
    single spaces. *)
Lemma clean_content_shape content :
  exists words,
    Forall is_word words /\ (length words <= 500)%nat /\
    clean_content content = join_space words.
Proof.
  unfold clean_content.
  destruct (String.eqb content "");
    [exists []; split; [constructor|split; [cbn; lia|reflexivity]]|].
  pose proof (split_ws_words content) as Hws.
  rewrite (split_join _ Hws).
  destruct (Nat.ltb_spec 500 (length (split_ws content))) as [Hlt|Hle].
  - assert (Hlen : length (firstn 500 (split_ws content)) = 500%nat)
      by (rewrite length_firstn; lia).
    assert (Hf : Forall is_word (firstn 500 (split_ws content))).
    { rewrite Forall_forall in Hws |- *. intros x Hx. apply Hws.
      apply list_elem_of_In. apply list_elem_of_In in Hx.
      eapply In_firstn; eassumption. }
    destruct (firstn 500 (split_ws content)) as [|x t] eqn:E using rev_ind;
      [discriminate|]. clear IHt.
    rewrite join_snoc_append.
    exists (t ++ [x +:+ "..."]).
    apply Forall_app in Hf. destruct Hf as [Ht Hx].
    apply Forall_cons in Hx. destruct Hx as [Hx _].
    split; [apply Forall_app; split; [assumption|]|].
    + constructor; [|constructor]. apply is_word_append; [assumption|].
      repeat constructor.
    + rewrite length_app in Hlen |- *. cbn [length] in *.
      split; [lia|reflexivity].
  - exists (split_ws content). now repeat split.
Qed.

Lemma clean_content_fixed words :
  Forall is_word words -> (length words <= 500)%nat ->
  clean_content (join_space words) = join_space words.
Proof.
  intros Hw Hlen. unfold clean_content.
  destruct (String.eqb (join_space words) "") eqn:E;
    [now apply String.eqb_eq in E|].
  rewrite (split_join _ Hw), (split_join _ Hw).
  destruct (Nat.ltb_spec 500 (length words)); [lia|reflexivity].
Qed.

(** Cleaning is idempotent.  The result reads as at most 500 words in
    the sense of [split], and it is normalised: putting its words
    together with single spaces gives the result itself, so it has no
    leading, trailing or repeated whitespace. *)
Theorem clean_content_normal_form (content : string) :
  clean_content (clean_content content) = clean_content content /\
  (length (split_ws (clean_content content)) <= 500)%nat /\
  join_space (split_ws (clean_content content)) = clean_content content.
Proof.
  destruct (clean_content_shape content) as (words & Hw & Hlen & ->).
  rewrite (split_join _ Hw).
  split; [now apply clean_content_fixed|split; [assumption|reflexivity]].
Qed.

(** ** [_is_article_url] *)

Lemma lower_ascii_idempotent c :
  Text.lower_ascii (Text.lower_ascii c) = Text.lower_ascii c.
Proof. destruct c as [[] [] [] [] [] [] [] []]; reflexivity. Qed.

Lemma lower_idempotent s : Text.lower (Text.lower s) = Text.lower s.
Proof.
  induction s as [|c r IH]; [reflexivity|].
  cbn [Text.lower]. now rewrite lower_ascii_idempotent, IH.
Qed.

Lemma lower_eqb_empty s : String.eqb (Text.lower s) "" = String.eqb s "".
Proof. now destruct s. Qed.

(** The answer depends neither on the page the link was found on nor on
    the case of the letters of the link. *)
Theorem is_article_url_ignores_case_and_base (href base1 base2 : string) :
  is_article_url (Text.lower href) base1 = is_article_url href base2.
Proof.
  unfold is_article_url. now rewrite lower_eqb_empty, lower_idempotent.
Qed.

Lemma contains_hash_lower s :
  Text.contains "#" s = true -> Text.contains "#" (Text.lower s) = true.
Proof.
  induction s as [|c r IH]; [discriminate|].
  cbn [Text.contains Text.lower String.prefix].
  destruct (ascii_dec "#" c) as [<-|Hc].
  - intros _. change (Text.lower_ascii "#") with "#"%char.
    destruct (ascii_dec "#" "#"); [|congruence].
    now destruct (Text.lower r).
  - intros H. rewrite orb_true_iff in H. destruct H as [H|H];
      [destruct r; discriminate|].
    rewrite (IH H). apply orb_true_r.
Qed.

(** A link with a fragment is never taken for an article, whatever else
    it contains: a [#] anywhere in it is enough to reject it. *)
Theorem fragment_links_rejected (href base_url : string) :
  Text.contains "#" href = true -> is_article_url href base_url = false.
Proof.
  intros H. unfold is_article_url.
  destruct (String.eqb href ""); [reflexivity|].
  assert (Hs : existsb (fun pattern => Text.contains pattern (Text.lower href))
                       skip_patterns = true).
  { apply existsb_exists. exists "#". split.
    - unfold skip_patterns. cbn [In]. tauto.
    - now apply contains_hash_lower. }
  now rewrite Hs.
Qed.

Lemma fragment_links_rejected_witness :
  is_article_url "https://openai.com/blog/gpt-5#comments" "https://openai.com"
  = false.
Proof.
  apply (fragment_links_rejected "https://openai.com/blog/gpt-5#comments"
           "https://openai.com").
  reflexivity.
Defined.

(** ** Listing pages of the Google Research blog *)

(** The first listing page, which is the blog address itself, passes for
    a valid article address; every further listing page is refused. *)
Theorem listing_pages_validity (page : Z) :
  is_valid_article_url (page_url page) = (page <=? 1).
Proof.
  unfold page_url. rewrite Z.gtb_ltb.
  destruct (Z.ltb_spec 1 page) as [Hlt|Hle].
  - rewrite (proj2 (Z.leb_gt page 1) Hlt).
    unfold is_valid_article_url.
    assert (H1 : Text.contains "/blog/" (blog_url +:+ "?page=" +:+ decimal page)
                 = true) by (now apply contains_app_l).
    assert (H2 : Text.contains "?page=" (blog_url +:+ "?page=" +:+ decimal page)
                 = true) by (now apply contains_app_r, contains_app_l).
    rewrite H1. cbn [negb]. rewrite orb_false_r.
    destruct (String.eqb _ ""); [reflexivity|].
    unfold google_skip_patterns. cbn [existsb]. now rewrite H2.
  - rewrite (proj2 (Z.leb_le page 1) Hle). reflexivity.
Qed.

(** ** [_extract_with_fallback] and [scrape_article] *)

Section ScrapeArticleFacts.
Variable md5_hex : string -> string.
Variable select_one : string -> option string.

Lemma extract_skip selector rest :
  gives_nothing select_one selector ->
  extract_with_fallback select_one (selector :: rest)
  = extract_with_fallback select_one rest.
Proof.
  intros [H|H]; cbn [extract_with_fallback].
  - now rewrite H.
  - rewrite H. now destruct (String.eqb _ _).
Qed.

(** The selectors are tried in order: the text returned is the one of
    the first selector that is not blank and selects an element, and
    there is no text exactly when every selector is blank or selects
    nothing. *)
Theorem extract_with_fallback_first_match (selectors : list string) :
  (forall before selector after text,
     selectors = before ++ selector :: after ->
     Forall (gives_nothing select_one) before ->
     Summary.strip selector <> EmptyString ->
     select_one (Summary.strip selector) = Some text ->
     extract_with_fallback select_one selectors = Some text) /\
  (extract_with_fallback select_one selectors = None <->
   Forall (gives_nothing select_one) selectors).
Proof.
  split.
  - intros before selector after text -> Hb Hne Hsel.
    induction Hb as [|s r Hs Hr IH]; cbn [app].
    + cbn [extract_with_fallback].
      rewrite (proj2 (String.eqb_neq _ _) Hne). now rewrite Hsel.
    + now rewrite extract_skip.
  - induction selectors as [|s r IH].
    + split; [constructor|reflexivity].
    + cbn [extract_with_fallback].
      destruct (String.eqb (Summary.strip s) "") eqn:E.
      * apply String.eqb_eq in E. rewrite IH. split.
        -- intros H. constructor; [now left|assumption].
        -- intros H. now apply Forall_cons in H.
      * apply String.eqb_neq in E.
        destruct (select_one (Summary.strip s)) as [text|] eqn:S.
        -- split; [discriminate|].
           intros H. apply Forall_cons in H. destruct H as [[H|H] _];
             congruence.
        -- rewrite IH. split.
           ++ intros H. constructor; [now right|assumption].
           ++ intros H. now apply Forall_cons in H.
Qed.

Lemma extract_nothing selectors :
  Forall (gives_nothing select_one) selectors ->
  extract_with_fallback select_one selectors = None.
Proof.
  induction 1 as [|s r Hs Hr IH]; [reflexivity|]. now rewrite extract_skip.
Qed.

(** Without a usable title selector there is no record: when the
    selectors have no ['title'] key, or when that key holds only blank
    pieces or pieces that select nothing, the page is given up. *)
Theorem scrape_article_without_title
    (url netloc now_text : string) (selectors : gmap string string) :
  (selectors !! "title" = None ->
   scrape_article md5_hex select_one url netloc now_text selectors = None) /\
  (Forall (gives_nothing select_one) (split_comma (default "" (selectors !! "title"))) ->
   scrape_article md5_hex select_one url netloc now_text selectors = None).
Proof.
  assert (H : Forall (gives_nothing select_one)
                (split_comma (default "" (selectors !! "title"))) ->
              scrape_article md5_hex select_one url netloc now_text selectors
              = None).
  { intros Hn. unfold scrape_article. now rewrite (extract_nothing _ Hn). }
  split; [|exact H].
  intros Hk. apply H. rewrite Hk. repeat constructor.
Qed.

(** A record that is returned has a title text that was found on the
    page and is not empty before stripping; its title is that text
    stripped, its content is in the normal form of [_clean_content] with
    at most 500 words, and its hash is the digest of the title and
    content texts as found, before stripping and cleaning, a missing
    content being hashed as the text [None]. *)
Theorem scraped_record
    (address netloc now_text : string) (selectors : gmap string string)
    (r : Article) :
  scrape_article md5_hex select_one address netloc now_text selectors = Some r ->
  exists text,
    extract_with_fallback select_one
      (split_comma (default "" (selectors !! "title"))) = Some text /\
    text <> EmptyString /\
    title r = Some (Summary.strip text) /\
    url r = Some address /\ source r = Some netloc /\
    hash r = Some (md5_hex (text +:+ format_optional
                     (extract_with_fallback select_one
                        (split_comma (default "" (selectors !! "content")))))) /\
    clean_content (get (content r)) = get (content r) /\
    (length (split_ws (get (content r))) <= 500)%nat.
Proof.
  unfold scrape_article.
  destruct (extract_with_fallback select_one
              (split_comma (default "" (selectors !! "title"))))
    as [text|] eqn:T; [|discriminate].
  cbn [is_falsy format_optional].
  destruct (String.eqb text "") eqn:E; [discriminate|].
  apply String.eqb_neq in E. intros [= <-].
  exists text. cbn [title url source hash content].
  split; [reflexivity|]. split; [assumption|].
  split; [reflexivity|]. split; [reflexivity|]. split; [reflexivity|].
  split; [reflexivity|].
  destruct (is_falsy _); [split; [reflexivity|cbn; lia]|].
  generalize (format_optional
                (extract_with_fallback select_one
                   (split_comma (default "" (selectors !! "content"))))).
  intros found. change (get (Some (clean_content found)))
    with (clean_content found).
  destruct (clean_content_shape found) as (words & Hw & Hlen & ->).
  rewrite (split_join _ Hw). split; [now apply clean_content_fixed|assumption].
Qed.

(** What the main pass takes for the hash of a scraped record is the
    hash the scraper has put there, not the digest of the stored title
    and content. *)
Theorem scraped_record_keeps_hash
    (address netloc now_text : string) (selectors : gmap string string)
    (r : Article) :
  (forall s, md5_hex s <> EmptyString) ->
  scrape_article md5_hex select_one address netloc now_text selectors = Some r ->
  article_hash md5_hex r = stored_hash r /\
  lacks_hash r = false.
Proof.
  intros Hmd5. unfold scrape_article.
  destruct (is_falsy _); [discriminate|]. intros [= <-].
  unfold article_hash, lacks_hash, stored_hash. cbn [hash].
  rewrite (proj2 (String.eqb_neq _ _) (Hmd5 _)). now split.
Qed.

End ScrapeArticleFacts.

Lemma extract_with_fallback_first_match_witness :
  extract_with_fallback sample_page [" "; "h2"; " h1 "; "article"]
  = Some " GPT-5   is here ".
Proof.
  apply (proj1 (extract_with_fallback_first_match sample_page
                  [" "; "h2"; " h1 "; "article"])
           [" "; "h2"] " h1 " ["article"] " GPT-5   is here " eq_refl).
  - constructor; [left; reflexivity|].
    constructor; [right; reflexivity|constructor].
  - vm_compute. discriminate.
  - reflexivity.
Defined.

Lemma scrape_article_without_title_witness :
  scrape_article text_digest sample_page "https://openai.com/blog/gpt-5"
    "openai.com" "2026-11-03 09:00:00" (<["content" := "article"]> ∅)
  = None.
Proof.
  apply (proj1 (scrape_article_without_title text_digest sample_page
                  "https://openai.com/blog/gpt-5" "openai.com"
                  "2026-11-03 09:00:00" (<["content" := "article"]> ∅))).
  reflexivity.
Defined.

Lemma scraped_record_witness :
  exists text,
    extract_with_fallback sample_page
      (split_comma (default "" (sample_selectors !! "title"))) = Some text /\
    text <> EmptyString /\
    Some "GPT-5   is here" = Some (Summary.strip text) /\
    Some "https://openai.com/blog/gpt-5" = Some "https://openai.com/blog/gpt-5" /\
    Some "openai.com" = Some "openai.com" /\
    Some " GPT-5   is here OpenAI   ships
 a new   model  "
    = Some (text_digest (text +:+ format_optional
              (extract_with_fallback sample_page
                 (split_comma (default "" (sample_selectors !! "content")))))) /\
    clean_content "OpenAI ships a new model" = "OpenAI ships a new model" /\
    (length (split_ws "OpenAI ships a new model") <= 500)%nat.
Proof.
  apply (scraped_record text_digest sample_page
           "https://openai.com/blog/gpt-5" "openai.com" "2026-11-03 09:00:00"
           sample_selectors
           (mkArticle (Some "GPT-5   is here") (Some "OpenAI ships a new model")
              (Some "https://openai.com/blog/gpt-5") (Some "openai.com")
              (Some "2026-11-03 09:00:00")
              (Some " GPT-5   is here OpenAI   ships
 a new   model  ")
              None None None None)).
  vm_compute. reflexivity.
Defined.

Lemma scraped_record_keeps_hash_witness :
  lacks_hash
    (mkArticle (Some "GPT-5   is here") (Some "OpenAI ships a new model")
       (Some "https://openai.com/blog/gpt-5") (Some "openai.com")
       (Some "2026-11-03 09:00:00")
       (Some "h GPT-5   is here OpenAI   ships
 a new   model  ")
       None None None None)
  = false.
Proof.
  apply (proj2 (scraped_record_keeps_hash (fun s => String "h" s) sample_page
                  "https://openai.com/blog/gpt-5" "openai.com"
                  "2026-11-03 09:00:00" sample_selectors
                  (mkArticle (Some "GPT-5   is here")
                     (Some "OpenAI ships a new model")
                     (Some "https://openai.com/blog/gpt-5") (Some "openai.com")
                     (Some "2026-11-03 09:00:00")
                     (Some "h GPT-5   is here OpenAI   ships
 a new   model  ")
                     None None None None)
                  ltac:(intros s; discriminate)
                  ltac:(vm_compute; reflexivity))).
Defined.

Lemma seen_hashes_after_call_witness :
  stored_hash
    (mkArticle (Some "OpenAI news") (Some "x") None None (Some "")
       (Some "OpenAI newsx") (Some 5) (Some "t") (Some "x.") (Some medium))
  ∉ ({[ "old" ]} : gset string).
Proof.
  apply (proj1 (proj2 (seen_hashes_after_call text_digest (fun _ => "t")
                         {[ "old" ]} [raw_article "OpenAI news" "x" ""]))).
  vm_compute. left. reflexivity.
Defined.

Lemma returned_records_come_from_batch_witness :
  exists a,
    In a [raw_article "OpenAI news" "x" ""] /\
    same_scraped_fields
      (mkArticle (Some "OpenAI news") (Some "x") None None (Some "")
         (Some "OpenAI newsx") (Some 5) (Some "t") (Some "x.") (Some medium))
      a /\
    Some "OpenAI newsx" = Some (article_hash text_digest a) /\
    2 <= calculate_relevance_score a.
Proof.
  apply (proj2 (returned_records_come_from_batch text_digest (fun _ => "t")
                  {[ "old" ]} [raw_article "OpenAI news" "x" ""])).
  vm_compute. left. reflexivity.
Defined.
